(** * Autolysis: a shallow embedding of [autolysis.py]

    The program reads a CSV file under a list of candidate encodings,
    computes five descriptive sections over the loaded table, renders
    charts, and asks a hosted model for a narrative report.

    Library calls (chardet, pandas, requests, tenacity) are modelled by
    their documented behaviour; what they compute from the bytes of the
    input file or from the network is supplied by an environment of
    oracles.  Floating-point values are idealised as rationals extended
    with NaN; the two sections whose claims speak of the values computed,
    missing values and outliers, are also given over an open arithmetic,
    with the IEEE 754 doubles of Python as one instance. *)

From Stdlib Require Import ZArith QArith Qround Lia Ascii.
From Stdlib Require PrimFloat SpecFloat FloatOps.
From stdpp Require Import gmap strings list fin_maps pretty.

Open Scope Z_scope.

(** ** Exceptions and the effect monad *)

(** The Python exceptions that the program can see, all of them
    subclasses of [Exception]. *)
Inductive exn : Type :=
| UnicodeDecodeError
| ParserError
| OtherError (what : string)      (* any other exception class of a library call *)
| ValueError (msg : string)
| TypeError
| KeyError
| ZeroDivisionError
| FileExistsError
| RequestException
| RetryError.                     (* tenacity, attempts exhausted *)

Global Instance exn_eq_dec : EqDecision exn.
Proof. solve_decision. Defined.

(** What a run sees and leaves behind: printed lines, the regular files
    of the working directory by path (those found there and those
    written, with the order of the writes), directories created, HTTP
    requests sent and the pauses slept between attempts. *)
Record world : Type := World {
  stdout : list string;
  files : gmap string string;
  write_log : list (string * string);
  dirs : list string;
  http_calls : nat;
  sleeps : list Z
}.

Definition initial_world : world :=
  World [] ∅ [] [] 0%nat [].

(** A computation either returns or raises; its effects stay either way. *)
Definition M (A : Type) : Type := world -> (exn + A) * world.

Definition ret {A} (a : A) : M A := fun w => (inr a, w).
Definition raise {A} (e : exn) : M A := fun w => (inl e, w).
Definition bind {A B} (m : M A) (k : A -> M B) : M B :=
  fun w => match m w with
           | (inr a, w') => k a w'
           | (inl e, w') => (inl e, w')
           end.

Declare Scope py_scope.
Delimit Scope py_scope with py.
Notation "x <- m ;; k" := (bind m (fun x => k))
  (at level 100, m at next level, right associativity) : py_scope.
Notation "m ;;; k" := (bind m (fun _ => k))
  (at level 100, right associativity) : py_scope.
Open Scope py_scope.

Definition print (line : string) : M unit :=
  fun w => (inr tt, World (stdout w ++ [line]) (files w) (write_log w)
                          (dirs w) (http_calls w) (sleeps w)).

(** [with open(path, 'w') as f: f.write(text)]: the file is replaced.
    Opening is taken to succeed, as it does in a run of the pipeline,
    where the directory of the path has just been created. *)
Definition write_file (path text : string) : M unit :=
  fun w => (inr tt, World (stdout w) (<[path := text]> (files w))
                          (write_log w ++ [(path, text)])
                          (dirs w) (http_calls w) (sleeps w)).

(** [os.makedirs(name, exist_ok=True)]: the empty name is refused with
    [FileNotFoundError], an existing directory is accepted, a regular
    file of that name is not. *)
Definition makedirs (name : string) : M unit :=
  fun w => if decide (name = EmptyString)
           then (inl (OtherError "FileNotFoundError"), w)
           else match files w !! name with
                | Some _ => (inl FileExistsError, w)
                | None =>
                    (inr tt, World (stdout w) (files w) (write_log w)
                               (if decide (name ∈ dirs w) then dirs w else dirs w ++ [name])
                               (http_calls w) (sleeps w))
                end.

Definition sleep (t : Z) : M unit :=
  fun w => (inr tt, World (stdout w) (files w) (write_log w)
                          (dirs w) (http_calls w) (sleeps w ++ [t])).

Definition count_http_call : M nat :=
  fun w => (inr (S (http_calls w)),
            World (stdout w) (files w) (write_log w)
                  (dirs w) (S (http_calls w)) (sleeps w)).

(** A stand-in for [str(e)] in the diagnostic prints: the message where
    the program builds it, the name of the class elsewhere. *)
Definition str_exn (e : exn) : string :=
  match e with
  | UnicodeDecodeError => "UnicodeDecodeError"
  | ParserError => "ParserError"
  | OtherError what => what
  | ValueError msg => msg
  | TypeError => "TypeError"
  | KeyError => "KeyError"
  | ZeroDivisionError => "division by zero"
  | FileExistsError => "FileExistsError"
  | RequestException => "RequestException"
  | RetryError => "RetryError"
  end.

(** ** Floating-point values *)

(** A Python [float], idealised: a rational or [NaN]. *)
Inductive float : Type :=
| NaN
| Fin (q : Q).

Definition fadd (a b : float) : float :=
  match a, b with Fin x, Fin y => Fin (x + y)%Q | _, _ => NaN end.
Definition fsub (a b : float) : float :=
  match a, b with Fin x, Fin y => Fin (x - y)%Q | _, _ => NaN end.
Definition fmul (a b : float) : float :=
  match a, b with Fin x, Fin y => Fin (x * y)%Q | _, _ => NaN end.

(** [a < b]; every comparison with [NaN] is false. *)
Definition flt (a b : float) : bool :=
  match a, b with Fin x, Fin y => negb (Qle_bool y x) | _, _ => false end.
Definition fgt (a b : float) : bool := flt b a.

(** Equality of floats as numbers. *)
Definition feq (a b : float) : Prop :=
  match a, b with
  | Fin x, Fin y => (x == y)%Q
  | NaN, NaN => True
  | _, _ => False
  end.

Definition of_nat (n : nat) : Q := inject_Z (Z.of_nat n).

(** ** The table *)

Inductive dtype : Type := Int64 | Float64 | Bool | Object.

Global Instance dtype_eq_dec : EqDecision dtype.
Proof. solve_decision. Defined.

(** A column of one dtype.  An [int64] or [bool] column has no null
    entry; a [float64] column holds [NaN] for one; an [object] column, as
    [read_csv] builds it from text fields, holds strings and nulls. *)
Inductive Series : Type :=
| IntSeries (l : list Z)
| FloatSeries (l : list float)
| BoolSeries (l : list bool)
| ObjectSeries (l : list (option string)).

Definition s_dtype (s : Series) : dtype :=
  match s with
  | IntSeries _ => Int64
  | FloatSeries _ => Float64
  | BoolSeries _ => Bool
  | ObjectSeries _ => Object
  end.

Definition s_len (s : Series) : nat :=
  match s with
  | IntSeries l => length l
  | FloatSeries l => length l
  | BoolSeries l => length l
  | ObjectSeries l => length l
  end.

(** [str(dtype)] *)
Definition dtype_str (d : dtype) : string :=
  match d with
  | Int64 => "int64"
  | Float64 => "float64"
  | Bool => "bool"
  | Object => "object"
  end.

(** [np.number] covers the integer and floating dtypes, not [bool]. *)
Definition is_number (d : dtype) : bool :=
  match d with Int64 | Float64 => true | _ => false end.

Definition is_nan (x : float) : bool :=
  match x with NaN => true | Fin _ => false end.

(** [s.isna()] *)
Definition isna (s : Series) : list bool :=
  match s with
  | IntSeries l => (fun _ => false) <$> l
  | FloatSeries l => is_nan <$> l
  | BoolSeries l => (fun _ => false) <$> l
  | ObjectSeries l => (fun o => match o with None => true | Some _ => false end) <$> l
  end.

(** [s.isna().all()] *)
Definition isna_all (s : Series) : bool := forallb id (isna s).

(** [s.isnull().sum()] *)
Definition null_count (s : Series) : nat := length (filter (fun b => b = true) (isna s)).

(** The entries of a column as floats, for the arithmetic on numeric
    columns. *)
Definition float_values (s : Series) : list float :=
  match s with
  | IntSeries l => (fun z => Fin (inject_Z z)) <$> l
  | FloatSeries l => l
  | BoolSeries l => (fun b : bool => Fin (if b then 1 else 0)%Q) <$> l
  | ObjectSeries l => (fun _ => NaN) <$> l
  end.

(** A [DataFrame]: the length of its index and its named columns, in
    file order. *)
Record DataFrame : Type := mkFrame {
  n_rows : nat;
  columns : list (string * Series)
}.

Definition column_names (df : DataFrame) : list string := (columns df).*1.

(** What [pd.read_csv] guarantees of the frame it returns: column names
    are pairwise distinct (repeated headers are renamed) and every column
    is as long as the index. *)
Definition aligned (df : DataFrame) : Prop :=
  NoDup (column_names df) ∧
  Forall (fun c => s_len c.2 = n_rows df) (columns df).

(** [df[col]] *)
Fixpoint lookup_col (col : string) (cols : list (string * Series)) : option Series :=
  match cols with
  | [] => None
  | (c, s) :: rest => if decide (c = col) then Some s else lookup_col col rest
  end.

Definition getitem (df : DataFrame) (col : string) : option Series :=
  lookup_col col (columns df).

(** [df[col] = s]: the column is replaced where it stands, or added at
    the end. *)
Fixpoint assign_col (col : string) (s : Series) (cols : list (string * Series))
  : list (string * Series) :=
  match cols with
  | [] => [(col, s)]
  | (c, s0) :: rest =>
      if decide (c = col) then (c, s) :: rest else (c, s0) :: assign_col col s rest
  end.

Definition setitem (df : DataFrame) (col : string) (s : Series) : DataFrame :=
  mkFrame (n_rows df) (assign_col col s (columns df)).

(** [df.select_dtypes(include=[np.number]).columns] *)
Definition select_number (df : DataFrame) : list string :=
  (filter (fun c => is_number (s_dtype c.2) = true) (columns df)).*1.

(** ** Ingestion: [_read_csv_robust] *)

(** What [requests.post] yields: a transport failure, or a response with
    its status code and body. *)
Inductive body : Type :=
| NotJson                       (* [response.json()] fails *)
| NoContentPath                 (* JSON without [choices[0].message.content] *)
| NonStringContent              (* the content is there but is not a [str] *)
| Content (text : string).

Inductive http_outcome : Type :=
| TransportError
| Response (status : Z) (b : body).

(** The oracles of one run: what the libraries compute from the outside
    world.  [http_post n] is the outcome of the [n]-th request sent. *)
Record env : Type := Env {
  chardet_detect : string -> option string;
  read_csv : string -> option string -> exn + DataFrame;
  environ_token : string;
  savefig : exn + string;
  http_post : nat -> http_outcome
}.

Definition encodings_to_try : list (option string) :=
  [Some "utf-8"; Some "latin-1"; Some "iso-8859-1"; Some "cp1252";
   Some "utf-16"; Some "ascii"].

(** [list(dict.fromkeys(l))]: keys are inserted left to right, a key that
    is already present keeps its place. *)
Definition dict_fromkeys {K} `{EqDecision K} (l : list K) : list K :=
  fold_left (fun seen k => if decide (k ∈ seen) then seen else seen ++ [k]) l [].

(** An f-string shows [None] as the word. *)
Definition fstr (o : option string) : string :=
  match o with Some s => s | None => "None" end.

Fixpoint str_join (sep : string) (l : list string) : string :=
  match l with
  | [] => EmptyString
  | [s] => s
  | s :: rest => s +:+ sep +:+ str_join sep rest
  end.

(** [sep.join(items)]: every item has to be a [str]. *)
Definition join (sep : string) (items : list (option string)) : M string :=
  match mapM id items with
  | Some ss => ret (str_join sep ss)
  | None => raise TypeError
  end.

(** The loop over the candidates; [None] when the loop runs off its end. *)
Fixpoint try_encodings (E : env) (path : string) (encs : list (option string))
  : M (option DataFrame) :=
  match encs with
  | [] => ret None
  | encoding :: rest =>
      match read_csv E path encoding with
      | inr df =>
          print ("Successfully read CSV with " +:+ fstr encoding +:+ " encoding") ;;;
          ret (Some df)
      | inl UnicodeDecodeError =>
          print ("Failed to read with " +:+ fstr encoding +:+ " encoding: "
                 +:+ str_exn UnicodeDecodeError) ;;;
          try_encodings E path rest
      | inl ParserError =>
          print ("Failed to read with " +:+ fstr encoding +:+ " encoding: "
                 +:+ str_exn ParserError) ;;;
          try_encodings E path rest
      | inl e => raise e
      end
  end.

Definition candidates (E : env) (path : string) : list (option string) :=
  dict_fromkeys (chardet_detect E path :: encodings_to_try).

Definition tried_message (tried : string) : string :=
  "Could not read the CSV file with any of the tried encodings. Tried: " +:+ tried.

Definition _read_csv_robust (E : env) (path : string) : M DataFrame :=
  let encodings := candidates E path in
  r <- try_encodings E path encodings ;;
  match r with
  | Some df => ret df
  | None =>
      tried <- join ", " encodings ;;
      raise (ValueError (tried_message tried))
  end.

(** ** Analysis *)

(** A number as pandas parses it out of a text field. *)
Inductive number : Type :=
| NInt (z : Z)
| NFloat (q : Q).

Record basic_stats : Type := mkStats {
  total_rows : nat;
  total_columns : nat;
  numeric_columns : list string;
  summary : gmap string (gmap string float)
}.

Record outlier_report : Type := mkReport {
  total_outliers : nat;
  percentage : float;
  lower_bound : float;
  upper_bound : float
}.

Record analysis : Type := mkAnalysis {
  a_basic_stats : basic_stats;
  a_missing_values : gmap string float;
  a_correlations : gmap string (gmap string float);
  a_column_types : gmap string string;
  a_outliers : gmap string outlier_report
}.

Section Pandas.

(** The numeric routines of pandas that the program calls: the parser
    behind [to_numeric], [Series.quantile] (which may raise),
    the Pearson coefficient behind [DataFrame.corr] and the per-column
    summary behind [DataFrame.describe]. *)
Variable parse_numeric : string -> option number.
Variable quantile : list float -> Q -> exn + float.
Variable pearson : list float -> list float -> float.
Variable describe : list float -> gmap string float.

(** One text field under [errors='coerce']. *)
Definition coerce_entry (o : option string) : option number :=
  match o with
  | Some s => parse_numeric s
  | None => None
  end.

Definition as_int (p : option number) : option Z :=
  match p with Some (NInt z) => Some z | _ => None end.

Definition as_float (p : option number) : float :=
  match p with
  | Some (NInt z) => Fin (inject_Z z)
  | Some (NFloat q) => Fin q
  | None => NaN
  end.

(** [pd.to_numeric(s, errors='coerce')]: a column of a numeric dtype
    (bool included) is returned as it is; the fields of an object
    column are parsed, the result is [int64] when every field is an
    integer and [float64], with [NaN] for what did not parse,
    otherwise. *)
Definition to_numeric (s : Series) : Series :=
  match s with
  | ObjectSeries l =>
      let parsed := coerce_entry <$> l in
      match mapM as_int parsed with
      | Some zs => IntSeries zs
      | None => FloatSeries (as_float <$> parsed)
      end
  | _ => s
  end.

(** The body of the loop of [_get_basic_statistics]; a failing lookup is
    swallowed by the bare [except]. *)
Definition coerce_column (st : DataFrame * list string) (col : string)
  : DataFrame * list string :=
  let '(df, numeric_cols) := st in
  match getitem df col with
  | None => st
  | Some s =>
      let df' := setitem df col (to_numeric s) in
      match getitem df' col with
      | Some s' =>
          (df', if isna_all s' then numeric_cols else numeric_cols ++ [col])
      | None => (df', numeric_cols)
      end
  end.

(** [list(set(l))]; the order Python gives the result is unspecified,
    the model keeps the order of first occurrence. *)
Definition list_set (l : list string) : list string := dict_fromkeys l.

(** [df[cols].describe().to_dict()]: when the selection holds a column
    of a number dtype only those are summarised, otherwise (bool columns
    only) all of them are; what the summary of one column holds is left
    to [describe] in both cases. *)
Definition describe_frame (df : DataFrame) (cols : list string)
  : gmap string (gmap string float) :=
  let selected := omap (fun c => (fun s => (c, s)) <$> getitem df c) cols in
  let number := filter (fun c => is_number (s_dtype c.2) = true) selected in
  list_to_map ((fun c => (c.1, describe (float_values c.2)))
                 <$> match number with [] => selected | _ => number end).

(** [_get_basic_statistics]; the second component is [self.df] after
    the call. *)
Definition _get_basic_statistics (df : DataFrame) : basic_stats * DataFrame :=
  let numeric_cols := select_number df in
  let '(df', numeric_cols) :=
    fold_left coerce_column (column_names df) (df, numeric_cols) in
  let numeric_cols := list_set numeric_cols in
  (mkStats (n_rows df') (length (columns df')) numeric_cols
           (match numeric_cols with
            | [] => ∅
            | _ => describe_frame df' numeric_cols
            end),
   df').

(** [count / len(df)] on a pandas Series: division by a zero length
    gives [NaN] for a zero count, the only count an empty aligned
    frame has. *)
Definition div_len (k n : nat) : float :=
  match n with
  | O => NaN
  | _ => Fin (of_nat k / of_nat n)%Q
  end.

(** [(df.isnull().sum() / len(df) * 100).to_dict()] *)
Definition missing_percentages (df : DataFrame) : gmap string float :=
  list_to_map
    ((fun c => (c.1, fmul (div_len (null_count c.2) (n_rows df)) (Fin 100))) <$> columns df).

(** [_analyze_missing_values] *)
Definition _analyze_missing_values (df : DataFrame) : gmap string float :=
  filter (fun kv => fgt kv.2 (Fin 0) = true) (missing_percentages df).

(** [df[cols].corr().to_dict()] *)
Definition corr_frame (df : DataFrame) (cols : list string)
  : gmap string (gmap string float) :=
  let data := omap (fun c => (fun s => (c, float_values s)) <$> getitem df c) cols in
  list_to_map
    ((fun a => (a.1, list_to_map ((fun b => (b.1, pearson b.2 a.2)) <$> data))) <$> data).

(** [_compute_correlations] *)
Definition _compute_correlations (df : DataFrame) : gmap string (gmap string float) :=
  let numeric_cols := select_number df in
  if decide (1 < length numeric_cols)%nat then corr_frame df numeric_cols else ∅.

(** [_get_column_types] *)
Definition _get_column_types (df : DataFrame) : gmap string string :=
  list_to_map ((fun c => (c.1, dtype_str (s_dtype c.2))) <$> columns df).

(** The rows that [(df[col] < lower) | (df[col] > upper)] selects. *)
Definition flagged (lower upper x : float) : bool := flt x lower || fgt x upper.

(** The [try] block of [_detect_outliers] for one column: the entry to
    store, none when no row is flagged, or the exception raised. *)
Definition column_outliers (df : DataFrame) (col : string) : exn + option outlier_report :=
  match getitem df col with
  | None => inl KeyError
  | Some s =>
      let xs := float_values s in
      match quantile xs (1 # 4) with
      | inl e => inl e
      | inr Q1 =>
          match quantile xs (3 # 4) with
          | inl e => inl e
          | inr Q3 =>
              let IQR := fsub Q3 Q1 in
              let lower := fsub Q1 (fmul (Fin (3 # 2)) IQR) in
              let upper := fadd Q3 (fmul (Fin (3 # 2)) IQR) in
              let k := length (filter (fun x => flagged lower upper x = true) xs) in
              match k with
              | O => inr None
              | _ =>
                  match n_rows df with
                  | O => inl ZeroDivisionError
                  | n => inr (Some (mkReport k
                           (fmul (Fin (of_nat k / of_nat n)%Q) (Fin 100)) lower upper))
                  end
              end
          end
      end
  end.

(** The line printed by the [except] branch. *)
Definition outlier_message (col : string) (e : exn) : string :=
  "Could not detect outliers for column " +:+ col +:+ ": " +:+ str_exn e.

Fixpoint detect_loop (df : DataFrame) (cols : list string)
    (outliers : gmap string outlier_report) : M (gmap string outlier_report) :=
  match cols with
  | [] => ret outliers
  | col :: rest =>
      match column_outliers df col with
      | inr (Some r) => detect_loop df rest (<[col := r]> outliers)
      | inr None => detect_loop df rest outliers
      | inl e =>
          print (outlier_message col e) ;;;
          detect_loop df rest outliers
      end
  end.

(** [_detect_outliers] *)
Definition _detect_outliers (df : DataFrame) : M (gmap string outlier_report) :=
  detect_loop df (select_number df) ∅.

(** [analyze_dataset]: the five sections, computed in this order on the
    one shared table. *)
Definition analyze_dataset (df : DataFrame) : M (analysis * DataFrame) :=
  let '(stats, df1) := _get_basic_statistics df in
  let missing := _analyze_missing_values df1 in
  let corr := _compute_correlations df1 in
  let types := _get_column_types df1 in
  outliers <- _detect_outliers df1 ;;
  ret (mkAnalysis stats missing corr types outliers, df1).

End Pandas.

(** ** Missing values and outliers over an open arithmetic *)

(** The operations on floats that [_analyze_missing_values] and
    [_detect_outliers] apply: [+], [-], [*] and [<] on floats, the float
    of a numeric literal of the source text ([1.5], [100], [0]), the
    quotient [count / length] of two integers, and the entries of a
    column read as floats. *)
Record arithmetic (F : Type) : Type := Arithmetic {
  ar_add : F -> F -> F;
  ar_sub : F -> F -> F;
  ar_mul : F -> F -> F;
  ar_lt : F -> F -> bool;
  ar_literal : Q -> F;
  ar_ratio : nat -> nat -> F;
  ar_values : Series -> list F
}.

Arguments ar_add {F}.
Arguments ar_sub {F}.
Arguments ar_mul {F}.
Arguments ar_lt {F}.
Arguments ar_literal {F}.
Arguments ar_ratio {F}.
Arguments ar_values {F}.

(** An entry of the outlier report, with floats of the arithmetic. *)
Record outlier_entry (F : Type) : Type := mkEntry {
  e_total_outliers : nat;
  e_percentage : F;
  e_lower_bound : F;
  e_upper_bound : F
}.

Arguments mkEntry {F}.
Arguments e_total_outliers {F}.
Arguments e_percentage {F}.
Arguments e_lower_bound {F}.
Arguments e_upper_bound {F}.

Section OpenArithmetic.

Context {F : Type}.
Variable ar : arithmetic F.

(** [Series.quantile] on the floats of the arithmetic; it may raise. *)
Variable quantile : list F -> Q -> exn + F.

(** [df.isnull().sum() / len(df) * 100] for one column. *)
Definition missing_percentage_over (df : DataFrame) (s : Series) : F :=
  ar_mul ar (ar_ratio ar (null_count s) (n_rows df)) (ar_literal ar 100).

(** [(df.isnull().sum() / len(df) * 100).to_dict()] *)
Definition missing_percentages_over (df : DataFrame) : gmap string F :=
  list_to_map ((fun c => (c.1, missing_percentage_over df c.2)) <$> columns df).

(** [_analyze_missing_values]: the entries with [v > 0]. *)
Definition _analyze_missing_values_over (df : DataFrame) : gmap string F :=
  filter (fun kv => ar_lt ar (ar_literal ar 0) kv.2 = true) (missing_percentages_over df).

(** [Q1 - 1.5 * IQR] and [Q3 + 1.5 * IQR] with [IQR = Q3 - Q1]. *)
Definition lower_bound_over (Q1 Q3 : F) : F :=
  ar_sub ar Q1 (ar_mul ar (ar_literal ar (3 # 2)) (ar_sub ar Q3 Q1)).
Definition upper_bound_over (Q1 Q3 : F) : F :=
  ar_add ar Q3 (ar_mul ar (ar_literal ar (3 # 2)) (ar_sub ar Q3 Q1)).

(** The rows that [(df[col] < lower) | (df[col] > upper)] selects. *)
Definition flagged_over (lower upper x : F) : bool :=
  ar_lt ar x lower || ar_lt ar upper x.

(** The [try] block of [_detect_outliers] for one column. *)
Definition column_outliers_over (df : DataFrame) (col : string)
  : exn + option (outlier_entry F) :=
  match getitem df col with
  | None => inl KeyError
  | Some s =>
      let xs := ar_values ar s in
      match quantile xs (1 # 4) with
      | inl e => inl e
      | inr Q1 =>
          match quantile xs (3 # 4) with
          | inl e => inl e
          | inr Q3 =>
              let lower := lower_bound_over Q1 Q3 in
              let upper := upper_bound_over Q1 Q3 in
              let k := length (filter (fun x => flagged_over lower upper x = true) xs) in
              match k with
              | O => inr None
              | _ =>
                  match n_rows df with
                  | O => inl ZeroDivisionError
                  | n => inr (Some (mkEntry k
                           (ar_mul ar (ar_ratio ar k n) (ar_literal ar 100)) lower upper))
                  end
              end
          end
      end
  end.

Fixpoint detect_loop_over (df : DataFrame) (cols : list string)
    (outliers : gmap string (outlier_entry F)) : M (gmap string (outlier_entry F)) :=
  match cols with
  | [] => ret outliers
  | col :: rest =>
      match column_outliers_over df col with
      | inr (Some r) => detect_loop_over df rest (<[col := r]> outliers)
      | inr None => detect_loop_over df rest outliers
      | inl e =>
          print (outlier_message col e) ;;;
          detect_loop_over df rest outliers
      end
  end.

(** [_detect_outliers] *)
Definition _detect_outliers_over (df : DataFrame) : M (gmap string (outlier_entry F)) :=
  detect_loop_over df (select_number df) ∅.

End OpenArithmetic.

(** The idealised arithmetic of the sections above. *)
Definition rationals : arithmetic float :=
  Arithmetic float fadd fsub fmul flt Fin div_len float_values.

(** An entry over the idealised arithmetic, as the record of the
    sections above. *)
Definition report_of_entry (e : outlier_entry float) : outlier_report :=
  mkReport (e_total_outliers e) (e_percentage e) (e_lower_bound e) (e_upper_bound e).

(** The arithmetic of Python floats, IEEE 754 binary64 with rounding to
    nearest even.  An integer becomes the nearest double; a rational
    entry of the table the quotient of the doubles of its numerator and
    denominator; [count / length] is the quotient of the doubles of the
    two integers, which is what numpy computes and, for counts below
    2^53, what [/] gives on two Python integers. *)
Definition double_of_Z (z : Z) : PrimFloat.float :=
  FloatOps.SF2Prim (SpecFloat.binary_normalize FloatOps.prec FloatOps.emax z 0 false).

Definition double_of_Q (q : Q) : PrimFloat.float :=
  PrimFloat.div (double_of_Z (Qnum q)) (double_of_Z (Zpos (Qden q))).

Definition double_of_float (x : float) : PrimFloat.float :=
  match x with
  | NaN => PrimFloat.nan
  | Fin q => double_of_Q q
  end.

Definition double_values (s : Series) : list PrimFloat.float :=
  double_of_float <$> float_values s.

Definition doubles : arithmetic PrimFloat.float :=
  Arithmetic PrimFloat.float PrimFloat.add PrimFloat.sub PrimFloat.mul PrimFloat.ltb
    double_of_Q
    (fun k n => PrimFloat.div (double_of_Z (Z.of_nat k)) (double_of_Z (Z.of_nat n)))
    double_values.

(** ** The analyzer object *)

Record DataAnalyzer : Type := mkAnalyzer {
  csv_path : string;
  df : DataFrame;
  dataset_name : string;
  api_key : string
}.

(** The last occurrence of [sep] splits the text around it. *)
Fixpoint rsplit (sep : ascii) (l : list ascii) : option (list ascii * list ascii) :=
  match l with
  | [] => None
  | x :: t =>
      match rsplit sep t with
      | Some (a, b) => Some (x :: a, b)
      | None => if decide (x = sep) then Some ([], t) else None
      end
  end.

(** [os.path.basename] *)
Definition basename (p : list ascii) : list ascii :=
  match rsplit "/"%char p with
  | Some (_, b) => b
  | None => p
  end.

(** [os.path.splitext(name)[0]] for a name without a directory part: the
    extension starts at the last dot, unless only dots come before it. *)
Definition splitext_root (name : list ascii) : list ascii :=
  match rsplit "."%char name with
  | Some (a, _) => if forallb (fun c => bool_decide (c = "."%char)) a then name else a
  | None => name
  end.

Definition dataset_name_of (path : string) : string :=
  String.string_of_list_ascii
    (splitext_root (basename (String.list_ascii_of_string path))).

(** [DataAnalyzer.__init__] *)
Definition init_analyzer (E : env) (path : string) : M DataAnalyzer :=
  table <- _read_csv_robust E path ;;
  ret (mkAnalyzer path table (dataset_name_of path) (environ_token E)).

(** ** Narration *)

Definition nl : string := String (Ascii.ascii_of_nat 10) EmptyString.

Definition readme_path (name : string) : string := name +:+ "/README.md".
Definition plots_path (name : string) : string := name +:+ "/analysis_plots.png".

Definition failure_note : string :=
  "Automated analysis could not generate a detailed narrative.".

(** The text written by the [except] branch of [generate_narrative]. *)
Definition fallback_report (name : string) (stats : basic_stats) : string :=
  "# Dataset Analysis for " +:+ name +:+ nl +:+ nl +:+
  "Total Rows: " +:+ pretty (total_rows stats) +:+ nl +:+
  "Total Columns: " +:+ pretty (total_columns stats) +:+ nl +:+ nl +:+
  failure_note.

(** [try: m except <class>: h] *)
Definition try_except {A} (m : M A) (catches : exn -> bool) (h : exn -> M A) : M A :=
  fun w => match m w with
           | (inl e, w') => if catches e then h e w' else (inl e, w')
           | r => r
           end.

(** [response.raise_for_status()] raises for the 4xx and 5xx codes. *)
Definition is_error_status (status : Z) : bool :=
  (400 <=? status) && (status <? 600).

(** The [try] block: send the request, check the status, take the text
    out of the body, write it.  [HTTPError] and the JSON decoding error of
    [requests] are subclasses of [RequestException]; a body without the
    expected path raises [KeyError]; with a content that is not a string
    the report file is opened, and so emptied, before [f.write] raises
    [TypeError]. *)
Definition request_and_write (E : env) (self : DataAnalyzer) : M unit :=
  n <- count_http_call ;;
  match http_post E n with
  | TransportError => raise RequestException
  | Response status b =>
      if is_error_status status then raise RequestException
      else match b with
           | NotJson => raise RequestException
           | NoContentPath => raise KeyError
           | NonStringContent =>
               write_file (readme_path (dataset_name self)) EmptyString ;;;
               raise TypeError
           | Content narrative => write_file (readme_path (dataset_name self)) narrative
           end
  end.

Definition is_request_exception (e : exn) : bool :=
  match e with RequestException => true | _ => false end.

(** The body of [generate_narrative], without its decorator. *)
Definition generate_narrative_body (E : env) (self : DataAnalyzer) (a : analysis) : M unit :=
  try_except (request_and_write E self) is_request_exception
    (fun e =>
       print ("Error generating narrative: " +:+ str_exn e) ;;;
       write_file (readme_path (dataset_name self))
                  (fallback_report (dataset_name self) (a_basic_stats a))).

(** [tenacity.wait_exponential(multiplier, min, max)] after the given
    attempt. *)
Definition wait_exponential (multiplier min_wait max_wait : Z) (attempt : nat) : Z :=
  Z.max (Z.max 0 min_wait) (Z.min (multiplier * 2 ^ (Z.of_nat attempt - 1)) max_wait).

(** [tenacity.retry]: call again whenever the call raises, sleep between
    the calls, give up with [RetryError] when no attempt is left. *)
Fixpoint retry_from {A} (wait : nat -> Z) (f : M A) (attempt remaining : nat) : M A :=
  fun w => match f w with
           | (inr a, w') => (inr a, w')
           | (inl e, w') =>
               match remaining with
               | O => (inl RetryError, w')
               | S r => (sleep (wait attempt) ;;; retry_from wait f (S attempt) r) w'
               end
           end.

Definition retry {A} (stop_after_attempt : nat) (wait : nat -> Z) (f : M A) : M A :=
  retry_from wait f 1 (stop_after_attempt - 1).

(** [generate_narrative], decorated with
    [@retry(stop=stop_after_attempt(3), wait=wait_exponential(multiplier=1, min=4, max=10))] *)
Definition generate_narrative (E : env) (self : DataAnalyzer) (a : analysis) : M unit :=
  retry 3 (wait_exponential 1 4 10) (generate_narrative_body E self a).

(** [visualize_data]: whatever goes wrong while drawing is printed and
    dropped. *)
Definition visualize_data (E : env) (self : DataAnalyzer) (a : analysis) : M unit :=
  match savefig E with
  | inr image => write_file (plots_path (dataset_name self)) image
  | inl e => print ("Error creating visualizations: " +:+ str_exn e)
  end.

(** ** The pipeline *)

(** How the process ends. *)
Inductive exit_status : Type :=
| Completed
| Exited (code : Z)
| Uncaught (e : exn).

Section Pipeline.

Variable parse_numeric : string -> option number.
Variable quantile : list float -> Q -> exn + float.
Variable pearson : list float -> list float -> float.
Variable describe : list float -> gmap string float.

(** [run_analysis] *)
Definition run_analysis (E : env) (self : DataAnalyzer) : M unit :=
  makedirs (dataset_name self) ;;;
  r <- analyze_dataset parse_numeric quantile pearson describe (df self) ;;
  let self' := mkAnalyzer (csv_path self) r.2 (dataset_name self) (api_key self) in
  visualize_data E self' r.1 ;;;
  generate_narrative E self' r.1.

Definition usage : string := "Usage: python autolysis.py <path_to_csv>".

(** [main], with [sys.argv] as its argument. *)
Definition main (E : env) (argv : list string) (w : world) : exit_status * world :=
  match argv with
  | _ :: path :: _ =>
      match (analyzer <- init_analyzer E path ;; run_analysis E analyzer) w with
      | (inr _, w') => (Completed, w')
      | (inl e, w') => (Uncaught e, w')
      end
  | _ =>
      match print usage w with
      | (_, w') => (Exited 1, w')
      end
  end.

End Pipeline.

(** ** Instances of the library routines, and sample runs *)

(** A parser for the fields used in the sample tables: an optional minus
    sign and decimal digits. *)
Fixpoint digits_value (acc : Z) (l : list ascii) : option Z :=
  match l with
  | [] => Some acc
  | c :: t =>
      let n := Z.of_nat (nat_of_ascii c) in
      if (48 <=? n) && (n <=? 57) then digits_value (10 * acc + (n - 48)) t else None
  end.

Definition parse_decimal (s : string) : option number :=
  match String.list_ascii_of_string s with
  | [] => None
  | c :: t =>
      if decide (c = "-"%char)
      then match t with
           | [] => None
           | _ => (fun z => NInt (- z)) <$> digits_value 0 t
           end
      else NInt <$> digits_value 0 (c :: t)
  end.

Fixpoint insert_sorted (x : Q) (l : list Q) : list Q :=
  match l with
  | [] => [x]
  | y :: t => if Qle_bool x y then x :: y :: t else y :: insert_sorted x t
  end.

Definition sort_values (l : list Q) : list Q := foldr insert_sorted [] l.

Definition finite (x : float) : option Q :=
  match x with Fin q => Some q | NaN => None end.

(** [Series.quantile] with its default linear interpolation: nulls are
    skipped, the position [(n - 1) * q] is interpolated between its two
    neighbours; [NaN] when no value is left.  It never raises. *)
Definition linear_quantile (xs : list float) (q : Q) : exn + float :=
  let vals := sort_values (omap finite xs) in
  match vals with
  | [] => inr NaN
  | v0 :: _ =>
      let pos := (of_nat (length vals - 1) * q)%Q in
      let lo := Z.to_nat (Qfloor pos) in
      let frac := (pos - inject_Z (Qfloor pos))%Q in
      let v_lo := nth lo vals v0 in
      let v_hi := nth (S lo) vals v_lo in
      inr (Fin (Qred (v_lo + frac * (v_hi - v_lo))))
  end.

(** The same routine on doubles.  The interpolation is the one numpy
    computes: from the lower neighbour below the middle of the two, from
    the upper neighbour from the middle on. *)
Fixpoint insert_sorted64 (x : PrimFloat.float) (l : list PrimFloat.float)
  : list PrimFloat.float :=
  match l with
  | [] => [x]
  | y :: t => if PrimFloat.leb x y then x :: y :: t else y :: insert_sorted64 x t
  end.

Definition linear_quantile64 (xs : list PrimFloat.float) (q : Q) : exn + PrimFloat.float :=
  let vals := foldr insert_sorted64 [] (filter (fun x => PrimFloat.eqb x x = true) xs) in
  match vals with
  | [] => inr PrimFloat.nan
  | v0 :: _ =>
      let pos := (of_nat (length vals - 1) * q)%Q in
      let lo := Z.to_nat (Qfloor pos) in
      let frac := (pos - inject_Z (Qfloor pos))%Q in
      let v_lo := nth lo vals v0 in
      let v_hi := nth (S lo) vals v_lo in
      let diff := PrimFloat.sub v_hi v_lo in
      inr (if Qle_bool (1 # 2) frac
           then PrimFloat.sub v_hi (PrimFloat.mul diff (double_of_Q (1 - frac)))
           else PrimFloat.add v_lo (PrimFloat.mul diff (double_of_Q frac)))
  end.

(** A quantile routine that raises on a column with a null entry and is
    [linear_quantile] elsewhere. *)
Definition failing_quantile (xs : list float) (q : Q) : exn + float :=
  if existsb is_nan xs
  then inl (OtherError "quantile failed")
  else linear_quantile xs q.

(** Stand-ins for the coefficient and the summary in runs that never
    reach them. *)
Definition pearson_unreached (xs ys : list float) : float := NaN.
Definition describe_unreached (xs : list float) : gmap string float := ∅.

(** A header-only file with one text column. *)
Definition header_only : DataFrame := mkFrame 0 [("t", ObjectSeries [])].

(** Two text columns. *)
Definition two_text : DataFrame :=
  mkFrame 2 [("a", ObjectSeries [Some "x"; Some "y"]);
             ("b", ObjectSeries [Some "u"; None])].

(** One numeric and one text column. *)
Definition one_numeric_one_text : DataFrame :=
  mkFrame 3 [("n", IntSeries [1; 2; 3]);
             ("t", ObjectSeries [Some "x"; Some "y"; Some "z"])].

(** A numeric column and a bool column. *)
Definition number_and_flag : DataFrame :=
  mkFrame 2 [("n", IntSeries [1; 2]); ("b", BoolSeries [true; false])].

(** One text column. *)
Definition one_text : DataFrame :=
  mkFrame 2 [("t", ObjectSeries [Some "x"; Some "y"])].

(** A numeric column with one far value, one with a null, and text. *)
Definition spread : DataFrame :=
  mkFrame 5 [("v", IntSeries [1; 2; 3; 4; 100]);
             ("w", FloatSeries [Fin 1; NaN; Fin 2; Fin 3; Fin 2]);
             ("t", ObjectSeries [Some "x"; None; Some "7"; Some "y"; Some "z"])].

(** A column whose largest value needs more than 53 bits between the
    quartiles and itself. *)
Definition wide : DataFrame :=
  mkFrame 5 [("x", IntSeries [0; 1; 5; 9007199254740992; 22517998136852480])].

Definition sample_analyzer (table : DataFrame) : DataAnalyzer :=
  mkAnalyzer "data.csv" table "data" "".

Definition sample_stats : basic_stats := mkStats 5 3 ["v"; "w"] ∅.

Definition sample_analysis : analysis := mkAnalysis sample_stats ∅ ∅ ∅ ∅.

(** The detector gives no encoding and no candidate parses. *)
Definition env_undetected : env :=
  Env (fun _ => None) (fun _ _ => inl ParserError) "" (inr "png") (fun _ => TransportError).

(** The table loads; the first request fails, the second would succeed. *)
Definition env_fail_then_succeed (table : DataFrame) : env :=
  Env (fun _ => Some "ascii") (fun _ _ => inr table) "" (inr "png")
      (fun n => match n with
                | 1%nat => TransportError
                | _ => Response 200 (Content "story")
                end).

(** The table loads; every request fails. *)
Definition env_network_down (table : DataFrame) : env :=
  Env (fun _ => Some "ascii") (fun _ _ => inr table) "" (inr "png")
      (fun _ => TransportError).

(** The table loads; every response is a 200 whose JSON lacks the text. *)
Definition env_bad_body (table : DataFrame) : env :=
  Env (fun _ => Some "ascii") (fun _ _ => inr table) "" (inr "png")
      (fun _ => Response 200 NoContentPath).

(** The detector says utf-8, which fails to decode; latin-1 parses. *)
Definition env_second_candidate (table : DataFrame) : env :=
  Env (fun _ => Some "utf-8")
      (fun _ enc => if decide (enc = Some "utf-8") then inl UnicodeDecodeError
                    else if decide (enc = Some "latin-1") then inr table
                    else inl ParserError)
      "" (inr "png") (fun _ => TransportError).

(** The detector names a codec that Python does not know. *)
Definition env_unknown_codec (table : DataFrame) : env :=
  Env (fun _ => Some "EUC-TW")
      (fun _ enc => if decide (enc = Some "EUC-TW") then inl (OtherError "LookupError")
                    else inr table)
      "" (inr "png") (fun _ => TransportError).

(** The detector says ascii and no candidate parses. *)
Definition env_no_parse : env :=
  Env (fun _ => Some "ascii") (fun _ _ => inl ParserError) "" (inr "png")
      (fun _ => TransportError).

(** The table loads; the first response lacks the text, the second has it. *)
Definition env_bad_then_good (table : DataFrame) : env :=
  Env (fun _ => Some "ascii") (fun _ _ => inr table) "" (inr "png")
      (fun n => match n with
                | 1%nat => Response 200 NoContentPath
                | _ => Response 200 (Content "story")
                end).

(** The table loads; the first response has the text; drawing fails. *)
Definition env_all_good (table : DataFrame) : env :=
  Env (fun _ => Some "ascii") (fun _ _ => inr table) "" (inl (OtherError "no display"))
      (fun _ => Response 200 (Content "story")).

(** The lines printed by the ingestion loop. *)
Definition success_line (enc : option string) : string :=
  "Successfully read CSV with " +:+ fstr enc +:+ " encoding".

(** ** Vocabulary of the statements *)

(** [sub] occurs in [text]. *)
Definition contains (text sub : string) : Prop :=
  ∃ pre post, text = pre +:+ sub +:+ post.

(** The outcomes of a request that the [try] block turns into a
    [RequestException]. *)
Definition request_fails (o : http_outcome) : bool :=
  match o with
  | TransportError => true
  | Response status b =>
      is_error_status status || match b with NotJson => true | _ => false end
  end.

(** The responses on which the [try] block raises something that is not
    a [RequestException]: a status outside 400..599 and a JSON body whose
    text is missing or is not a string. *)
Definition lacks_text (o : http_outcome) : bool :=
  match o with
  | TransportError => false
  | Response status b =>
      ((status <? 400) || (600 <=? status)) &&
      match b with NoContentPath | NonStringContent => true | _ => false end
  end.

(** The errors on which the ingestion loop moves on. *)
Definition moves_on (r : exn + DataFrame) : Prop :=
  r = inl UnicodeDecodeError ∨ r = inl ParserError.

(** The bounds of the IQR rule for given quartiles. *)
Definition iqr_lower (q1 q3 : Q) : Q := (q1 - (3 # 2) * (q3 - q1))%Q.
Definition iqr_upper (q1 q3 : Q) : Q := (q3 + (3 # 2) * (q3 - q1))%Q.

(** The type labels of the numeric dtypes. *)
Definition numeric_label (label : string) : Prop :=
  label = "int64" ∨ label = "float64".

(** * Properties *)

(** ** The effect monad *)

Lemma bind_ret_l {A B} (a : A) (k : A -> M B) w : bind (ret a) k w = k a w.
Proof. reflexivity. Qed.

Lemma bind_inr {A B} (m : M A) (k : A -> M B) w a w' :
  m w = (inr a, w') → bind m k w = k a w'.
Proof. intros H. unfold bind. by rewrite H. Qed.

Lemma bind_inl {A B} (m : M A) (k : A -> M B) w e w' :
  m w = (inl e, w') → bind m k w = (inl e, w').
Proof. intros H. unfold bind. by rewrite H. Qed.

Lemma append_assoc (a b c : string) : (a +:+ b) +:+ c = a +:+ b +:+ c.
Proof.
  induction a as [|x a IH]; [done|].
  change (String x ((a +:+ b) +:+ c) = String x (a +:+ b +:+ c)).
  by rewrite IH.
Qed.

Lemma append_empty_r (a : string) : a +:+ EmptyString = a.
Proof.
  induction a as [|x a IH]; [done|].
  change (String x (a +:+ EmptyString) = String x a). by rewrite IH.
Qed.

Lemma contains_here (pre sub post : string) : contains (pre +:+ sub +:+ post) sub.
Proof. by exists pre, post. Qed.

(** ** Ingestion *)

Lemma filter_iff_on {A} (P1 P2 : A → Prop)
    `{!∀ x, Decision (P1 x), !∀ x, Decision (P2 x)} (l : list A) :
  (∀ x, x ∈ l → P1 x ↔ P2 x) → filter P1 l = filter P2 l.
Proof.
  induction l as [|a l IH]; intros Hext; [done|].
  rewrite !filter_cons.
  rewrite IH by (intros x Hx; apply Hext; by right).
  destruct (decide (P1 a)) as [H1|H1], (decide (P2 a)) as [H2|H2]; try done;
    exfalso; specialize (Hext a (list_elem_of_here _ _)); tauto.
Qed.

Lemma fromkeys_fold {K} `{EqDecision K} (l seen : list K) :
  NoDup l →
  fold_left (fun seen k => if decide (k ∈ seen) then seen else seen ++ [k]) l seen
  = seen ++ filter (fun k => k ∉ seen) l.
Proof.
  revert seen. induction l as [|k t IH]; intros seen Hnd.
  - by rewrite app_nil_r.
  - apply NoDup_cons in Hnd as [Hk Ht]. simpl.
    rewrite filter_cons. destruct (decide (k ∈ seen)) as [Hin|Hin].
    + rewrite decide_False by (intros Hn; by apply Hn). by apply IH.
    + rewrite decide_True by done. rewrite IH by done.
      rewrite <- app_assoc. simpl. do 2 f_equal.
      apply filter_iff_on. intros x Hx.
      rewrite elem_of_app, list_elem_of_singleton.
      split; [tauto|]. intros Hs [?| ->]; [done | by apply Hk].
Qed.

Lemma encodings_to_try_NoDup : NoDup encodings_to_try.
Proof. apply (bool_decide_unpack _). by vm_compute. Qed.

(** The candidate list: the detector's answer first, then the fixed
    list without it. *)
Lemma candidates_order (E : env) (path : string) :
  candidates E path
  = chardet_detect E path :: filter (fun k => k ≠ chardet_detect E path) encodings_to_try.
Proof.
  unfold candidates, dict_fromkeys. cbn [fold_left].
  rewrite decide_False by apply not_elem_of_nil. simpl app.
  rewrite fromkeys_fold.
  - simpl. f_equal. apply list_filter_iff. intros x.
    by rewrite list_elem_of_singleton.
  - apply encodings_to_try_NoDup.
Qed.

Lemma candidates_NoDup (E : env) (path : string) : NoDup (candidates E path).
Proof.
  rewrite candidates_order. apply NoDup_cons. split.
  - rewrite list_elem_of_filter. tauto.
  - apply NoDup_filter, encodings_to_try_NoDup.
Qed.

(** The loop returns the table of the first candidate that parses, when
    every candidate before it failed to decode or to parse. *)
Lemma try_encodings_first_success (E : env) (path : string) before enc after table w :
  Forall (fun e => moves_on (read_csv E path e)) before →
  read_csv E path enc = inr table →
  (try_encodings E path (before ++ enc :: after) w).1 = inr (Some table).
Proof.
  revert w. induction before as [|e t IH]; intros w Hall Hok; simpl.
  - by rewrite Hok.
  - apply Forall_cons in Hall as [[He|He] Ht]; rewrite He;
      unfold bind, print; simpl; by apply IH.
Qed.

(** Any other error of a candidate leaves the loop at once. *)
Lemma try_encodings_other_error (E : env) (path : string) before enc after e w :
  Forall (fun e => moves_on (read_csv E path e)) before →
  read_csv E path enc = inl e →
  e ≠ UnicodeDecodeError → e ≠ ParserError →
  (try_encodings E path (before ++ enc :: after) w).1 = inl e.
Proof.
  revert w. induction before as [|e0 t IH]; intros w Hall Herr H1 H2; simpl.
  - rewrite Herr. by destruct e.
  - apply Forall_cons in Hall as [[He|He] Ht]; rewrite He;
      unfold bind, print; simpl; by apply IH.
Qed.

Lemma try_encodings_all_fail (E : env) (path : string) encs w :
  Forall (fun e => moves_on (read_csv E path e)) encs →
  (try_encodings E path encs w).1 = inr None.
Proof.
  revert w. induction encs as [|e t IH]; intros w Hall; simpl; [done|].
  apply Forall_cons in Hall as [[He|He] Ht]; rewrite He;
    unfold bind, print; simpl; by apply IH.
Qed.

(** When the detector names an encoding and every candidate fails, the
    error raised lists the candidates. *)
Lemma read_csv_robust_all_fail_named (E : env) (path : string) detected w :
  chardet_detect E path = Some detected →
  Forall (fun e => moves_on (read_csv E path e)) (candidates E path) →
  ∃ names,
    candidates E path = Some <$> names ∧
    (_read_csv_robust E path w).1 = inl (ValueError (tried_message (str_join ", " names))).
Proof.
  intros Hdet Hall.
  assert (Hnames : ∃ names, candidates E path = Some <$> names).
  { rewrite candidates_order, Hdet. unfold encodings_to_try.
    rewrite !filter_cons, filter_nil.
    repeat case_decide;
      match goal with
      | |- ∃ names, ?l = _ =>
          let rec strip l :=
            lazymatch l with
            | Some ?x :: ?t => let r := strip t in constr:(x :: r)
            | [] => constr:(@nil string)
            end in
          let ns := strip l in exists ns; reflexivity
      end. }
  destruct Hnames as [names Hnames]. exists names. split; [done|].
  unfold _read_csv_robust.
  pose proof (try_encodings_all_fail E path (candidates E path) w Hall) as Hrun.
  destruct (try_encodings E path (candidates E path) w) as [r w'] eqn:Hr.
  simpl in Hrun; subst r.
  erewrite bind_inr by exact Hr. unfold join. rewrite Hnames.
  assert (Hm : mapM id (Some <$> names) = Some names).
  { apply mapM_Some. clear. induction names; constructor; auto. }
  rewrite Hm. reflexivity.
Qed.

(** C4: when the detector gives no encoding and no candidate parses, the
    candidate list is the empty answer followed by the six fixed
    encodings, and the error that ends ingestion is the [TypeError] of
    joining the list, not an error that names the encodings tried. *)
Theorem read_csv_robust_undetected_type_error :
  candidates env_undetected "data.csv" = None :: encodings_to_try ∧
  Forall (fun e => moves_on (read_csv env_undetected "data.csv" e))
         (candidates env_undetected "data.csv") ∧
  (_read_csv_robust env_undetected "data.csv" initial_world).1 = inl TypeError.
Proof.
  split; [reflexivity|]. split; [|reflexivity].
  apply Forall_forall. intros e _. right. reflexivity.
Qed.

(** ** Narration *)

(** The waits of the decorator lie between 4 and 10, whatever the
    attempt. *)
Lemma wait_exponential_bounds (attempt : nat) :
  4 <= wait_exponential 1 4 10 attempt <= 10.
Proof. unfold wait_exponential. lia. Qed.

(** One run of the undecorated body, by the outcome of its request. *)
Lemma body_request_fails (E : env) (self : DataAnalyzer) (a : analysis) (w : world) :
  request_fails (http_post E (S (http_calls w))) = true →
  generate_narrative_body E self a w =
    (inr tt,
     World (stdout w ++ ["Error generating narrative: " +:+ str_exn RequestException])
           (<[readme_path (dataset_name self) :=
                fallback_report (dataset_name self) (a_basic_stats a)]> (files w))
           (write_log w ++ [(readme_path (dataset_name self),
                             fallback_report (dataset_name self) (a_basic_stats a))])
           (dirs w) (S (http_calls w)) (sleeps w)).
Proof.
  intros Hf. unfold generate_narrative_body, try_except, request_and_write,
    bind, count_http_call. simpl.
  destruct (http_post E (S (http_calls w))) as [|status b]; simpl in *; [done|].
  destruct (is_error_status status); simpl in *; [done|].
  destruct b; simpl in *; done.
Qed.

Lemma body_no_content_path (E : env) (self : DataAnalyzer) (a : analysis) (w : world) status :
  http_post E (S (http_calls w)) = Response status NoContentPath →
  is_error_status status = false →
  generate_narrative_body E self a w =
    (inl KeyError,
     World (stdout w) (files w) (write_log w) (dirs w) (S (http_calls w)) (sleeps w)).
Proof.
  intros Hp Hs. unfold generate_narrative_body, try_except, request_and_write,
    bind, count_http_call. simpl. by rewrite Hp, Hs.
Qed.

Lemma body_content (E : env) (self : DataAnalyzer) (a : analysis) (w : world) status text :
  http_post E (S (http_calls w)) = Response status (Content text) →
  is_error_status status = false →
  generate_narrative_body E self a w =
    (inr tt,
     World (stdout w) (<[readme_path (dataset_name self) := text]> (files w))
           (write_log w ++ [(readme_path (dataset_name self), text)])
           (dirs w) (S (http_calls w)) (sleeps w)).
Proof.
  intros Hp Hs. unfold generate_narrative_body, try_except, request_and_write,
    bind, count_http_call. simpl. by rewrite Hp, Hs.
Qed.

Lemma body_non_string (E : env) (self : DataAnalyzer) (a : analysis) (w : world) status :
  http_post E (S (http_calls w)) = Response status NonStringContent →
  is_error_status status = false →
  generate_narrative_body E self a w =
    (inl TypeError,
     World (stdout w) (<[readme_path (dataset_name self) := EmptyString]> (files w))
           (write_log w ++ [(readme_path (dataset_name self), EmptyString)])
           (dirs w) (S (http_calls w)) (sleeps w)).
Proof.
  intros Hp Hs. unfold generate_narrative_body, try_except, request_and_write,
    bind, count_http_call. simpl. by rewrite Hp, Hs.
Qed.

(** The four ways one run of the body can end. *)
Lemma body_cases (E : env) (self : DataAnalyzer) (a : analysis) (w : world) :
  request_fails (http_post E (S (http_calls w))) = true ∨
  (∃ status, http_post E (S (http_calls w)) = Response status NoContentPath
             ∧ is_error_status status = false) ∨
  (∃ status, http_post E (S (http_calls w)) = Response status NonStringContent
             ∧ is_error_status status = false) ∨
  (∃ status text, http_post E (S (http_calls w)) = Response status (Content text)
                  ∧ is_error_status status = false).
Proof.
  destruct (http_post E (S (http_calls w))) as [|status b]; [by left|].
  simpl. destruct (is_error_status status) eqn:Hs; [by left|].
  destruct b; [by left | right; left; eauto | right; right; left; eauto
              | right; right; right; eauto].
Qed.

(** A failed request ends the decorated call at once: the body has
    caught the failure, so the decorator sees a normal return. *)
Lemma generate_narrative_no_retry (E : env) (self : DataAnalyzer) (a : analysis) (w : world) :
  request_fails (http_post E (S (http_calls w))) = true →
  generate_narrative E self a w = generate_narrative_body E self a w.
Proof.
  intros Hf. unfold generate_narrative, retry. simpl.
  by rewrite (body_request_fails _ _ _ _ Hf).
Qed.

Lemma fallback_report_contains (name : string) (stats : basic_stats) :
  contains (fallback_report name stats) name ∧
  contains (fallback_report name stats) ("Total Rows: " +:+ pretty (total_rows stats)) ∧
  contains (fallback_report name stats) ("Total Columns: " +:+ pretty (total_columns stats)) ∧
  contains (fallback_report name stats) failure_note.
Proof.
  unfold fallback_report. repeat split.
  - apply contains_here.
  - exists ("# Dataset Analysis for " +:+ name +:+ nl +:+ nl),
           (nl +:+ "Total Columns: " +:+ pretty (total_columns stats) +:+ nl +:+ nl
            +:+ failure_note).
    by rewrite !append_assoc.
  - exists ("# Dataset Analysis for " +:+ name +:+ nl +:+ nl +:+
            "Total Rows: " +:+ pretty (total_rows stats) +:+ nl),
           (nl +:+ nl +:+ failure_note).
    by rewrite !append_assoc.
  - exists ("# Dataset Analysis for " +:+ name +:+ nl +:+ nl +:+
            "Total Rows: " +:+ pretty (total_rows stats) +:+ nl +:+
            "Total Columns: " +:+ pretty (total_columns stats) +:+ nl +:+ nl),
           EmptyString.
    by rewrite !append_assoc, append_empty_r.
Qed.

(** C1: the first request fails and the second would succeed with the
    text "story".  The decorated call sends one request, sleeps for no
    retry, and leaves the fallback text in the report, not "story". *)
Theorem narrative_fail_then_succeed_writes_fallback :
  let run := generate_narrative (env_fail_then_succeed spread)
               (sample_analyzer spread) sample_analysis initial_world in
  run.1 = inr tt ∧
  http_calls run.2 = 1%nat ∧
  sleeps run.2 = [] ∧
  write_log run.2 = [("data/README.md", fallback_report "data" sample_stats)] ∧
  files run.2 !! "data/README.md" = Some (fallback_report "data" sample_stats) ∧
  fallback_report "data" sample_stats ≠ "story".
Proof. by vm_compute. Qed.

(** C3: every request is answered by a 200 whose JSON lacks the
    narrative text.  The handler of [generate_narrative] catches request
    failures only, so each attempt raises past it; after the third the
    decorator raises [RetryError] out of the narration stage, and no
    report file, not even the fallback, has been written. *)
Theorem narration_exhausted_attempts_no_report :
  let run := generate_narrative (env_bad_body spread)
               (sample_analyzer spread) sample_analysis initial_world in
  run.1 = inl RetryError ∧
  http_calls run.2 = 3%nat ∧
  sleeps run.2 = [4; 4] ∧
  write_log run.2 = [] ∧
  files run.2 !! "data/README.md" = None ∧
  stdout run.2 = [].
Proof. by vm_compute. Qed.

(** ** Floats *)

Lemma flt_spec (x y : Q) : flt (Fin x) (Fin y) = true ↔ (x < y)%Q.
Proof.
  simpl. rewrite negb_true_iff. split.
  - intros H. apply Qnot_le_lt. intros Hle.
    apply Qle_bool_iff in Hle. congruence.
  - intros H. destruct (Qle_bool y x) eqn:Hb; [|done].
    apply Qle_bool_iff in Hb. by apply Qlt_not_le in H.
Qed.

Lemma flt_finite (a b : float) :
  flt a b = true → ∃ x y, a = Fin x ∧ b = Fin y ∧ (x < y)%Q.
Proof.
  destruct a as [|x], b as [|y]; try done.
  intros H. exists x, y. by rewrite <- flt_spec.
Qed.

Lemma of_nat_pos (n : nat) : (0 < n)%nat → (0 < of_nat n)%Q.
Proof.
  intros H. unfold of_nat, Qlt. simpl. lia.
Qed.

(** ** The table *)

Lemma lookup_mapped_columns {B} (f : Series → B) (cols : list (string * Series)) col :
  (list_to_map ((fun c => (c.1, f c.2)) <$> cols) : gmap string B) !! col
  = f <$> lookup_col col cols.
Proof.
  induction cols as [|[c s] t IH]; simpl; [by rewrite lookup_empty|].
  rewrite lookup_insert. destruct (decide (c = col)); [done | exact IH].
Qed.

Lemma lookup_col_elem_of col s cols : lookup_col col cols = Some s → (col, s) ∈ cols.
Proof.
  induction cols as [|[c s0] t IH]; simpl; [done|].
  destruct (decide (c = col)) as [->|]; intros H.
  - injection H as ->. left.
  - right. by apply IH.
Qed.

Lemma lookup_col_fmap (g : Series → Series) cols col :
  lookup_col col ((fun c => (c.1, g c.2)) <$> cols) = g <$> lookup_col col cols.
Proof.
  induction cols as [|[c s] t IH]; simpl; [done|].
  destruct (decide (c = col)); [done | exact IH].
Qed.

(** ** Missing values *)

Lemma null_count_le (s : Series) : (null_count s <= s_len s)%nat.
Proof.
  unfold null_count.
  etransitivity; [apply length_filter|].
  destruct s as [l|l|l|l]; simpl; by rewrite length_fmap.
Qed.

(** The section over the idealised arithmetic is the one that
    [analyze_dataset] computes. *)
Lemma analyze_missing_values_rationals (df : DataFrame) :
  _analyze_missing_values_over rationals df = _analyze_missing_values df.
Proof. reflexivity. Qed.

(** In the idealised arithmetic a positive count gives a percentage
    above zero, and a zero count does not. *)
Lemma rationals_percentage_sign :
  (∀ k n, (0 < k <= n)%nat →
     ar_lt rationals (ar_literal rationals 0)
       (ar_mul rationals (ar_ratio rationals k n) (ar_literal rationals 100)) = true) ∧
  (∀ n, ar_lt rationals (ar_literal rationals 0)
          (ar_mul rationals (ar_ratio rationals 0 n) (ar_literal rationals 100)) = false).
Proof.
  split.
  - intros k n Hk. destruct n as [|n]; [lia|]. cbn.
    apply flt_spec. apply Qmult_lt_0_compat; [|done].
    apply Qlt_shift_div_l; [apply of_nat_pos; lia|].
    rewrite Qmult_0_l. apply of_nat_pos. lia.
  - intros [|n]; [done|]. cbn. apply negb_false_iff. apply Qle_bool_iff.
    unfold of_nat, Qle, Qdiv, Qmult, Qinv. simpl. lia.
Qed.

(** C6: in the arithmetic of the program's floats, whichever it is, the
    missing-values section holds a column exactly when the table has the
    column and its percentage of null entries, the null count divided by
    the number of rows, times 100, compares greater than zero; the value
    stored is that percentage.  So no entry is a percentage that is not
    above zero.  Where the arithmetic gives a positive count over at
    least as many rows a percentage above zero, every column with a null
    entry is in the section; where it gives a zero count none, no
    column without a null entry is. *)
Theorem missing_values_nonzero_only {F : Type} (ar : arithmetic F)
    (df : DataFrame) (col : string) :
  (∀ v, _analyze_missing_values_over ar df !! col = Some v ↔
     ∃ s, getitem df col = Some s ∧
          v = ar_mul ar (ar_ratio ar (null_count s) (n_rows df)) (ar_literal ar 100) ∧
          ar_lt ar (ar_literal ar 0) v = true) ∧
  ((∀ k n, (0 < k <= n)%nat →
      ar_lt ar (ar_literal ar 0)
        (ar_mul ar (ar_ratio ar k n) (ar_literal ar 100)) = true) →
   aligned df →
   ∀ s, getitem df col = Some s → (0 < null_count s)%nat →
        is_Some (_analyze_missing_values_over ar df !! col)) ∧
  ((∀ n, ar_lt ar (ar_literal ar 0)
           (ar_mul ar (ar_ratio ar 0 n) (ar_literal ar 100)) = false) →
   ∀ s, getitem df col = Some s → null_count s = 0%nat →
        _analyze_missing_values_over ar df !! col = None).
Proof.
  assert (Hiff : ∀ v, _analyze_missing_values_over ar df !! col = Some v ↔
     ∃ s, getitem df col = Some s ∧
          v = ar_mul ar (ar_ratio ar (null_count s) (n_rows df)) (ar_literal ar 100) ∧
          ar_lt ar (ar_literal ar 0) v = true).
  { intros v. unfold _analyze_missing_values_over, missing_percentages_over.
    rewrite map_lookup_filter_Some.
    rewrite (lookup_mapped_columns (missing_percentage_over ar df)).
    fold (getitem df col). cbn [snd]. split.
    - intros [Hv Hpos]. destruct (getitem df col) as [s|]; [|done].
      injection Hv as <-. by exists s.
    - intros (s & -> & -> & Hpos). done. }
  split; [exact Hiff|]. split.
  - intros Hsign [_ Hlen] s Hs Hk. eexists. apply Hiff. exists s.
    split; [done|]. split; [done|]. apply Hsign. split; [done|].
    rewrite Forall_forall in Hlen.
    rewrite <- (Hlen (col, s) (lookup_col_elem_of _ _ _ Hs)).
    apply null_count_le.
  - intros Hsign s Hs Hk. apply eq_None_not_Some. intros [v Hv].
    apply Hiff in Hv as (s' & Hs' & -> & Hpos).
    rewrite Hs in Hs'. injection Hs' as <-. rewrite Hk, Hsign in Hpos. done.
Qed.

(** In doubles, on [spread]: the column "w" with one null entry in five
    is reported at 20 percent, the column "v" without a null entry is
    not reported. *)
Example missing_values_doubles_spread :
  _analyze_missing_values_over doubles spread !! "w" = Some (double_of_Z 20) ∧
  _analyze_missing_values_over doubles spread !! "v" = None.
Proof. split; by vm_compute. Qed.

(** ** Basic statistics: the coercion of the table *)

Lemma lookup_col_skip col s pre rest :
  col ∉ pre.*1 → lookup_col col (pre ++ (col, s) :: rest) = Some s.
Proof.
  induction pre as [|[c s0] t IH]; simpl; intros Hn.
  - by rewrite decide_True.
  - rewrite decide_False by (intros ->; apply Hn; left).
    apply IH. intros Hin. apply Hn. by right.
Qed.

Lemma assign_col_skip col s s' pre rest :
  col ∉ pre.*1 →
  assign_col col s' (pre ++ (col, s) :: rest) = pre ++ (col, s') :: rest.
Proof.
  induction pre as [|[c s0] t IH]; simpl; intros Hn.
  - by rewrite decide_True.
  - rewrite decide_False by (intros ->; apply Hn; left).
    f_equal. apply IH. intros Hin. apply Hn. by right.
Qed.

Section Coercion.

Variable parse_numeric : string -> option number.
Variable describe : list float -> gmap string float.

Let coerced (cols : list (string * Series)) : list (string * Series) :=
  (fun c => (c.1, to_numeric parse_numeric c.2)) <$> cols.

Let promoted (cols : list (string * Series)) : list string :=
  (filter (fun c => isna_all (to_numeric parse_numeric c.2) = false) cols).*1.

(** The loop of [_get_basic_statistics] over a table with distinct
    column names: every column is replaced by its coercion, and the
    columns that keep a value are appended to the numeric names. *)
Lemma coerce_fold n pre cols acc :
  NoDup ((pre ++ cols).*1) →
  fold_left (coerce_column parse_numeric) (cols.*1) (mkFrame n (pre ++ cols), acc)
  = (mkFrame n (pre ++ coerced cols), acc ++ promoted cols).
Proof.
  revert pre acc. induction cols as [|[c s] t IH]; intros pre acc Hnd.
  - unfold coerced, promoted. cbn. by rewrite (app_nil_r acc).
  - assert (Hc : c ∉ pre.*1).
    { rewrite fmap_app in Hnd. apply NoDup_app in Hnd as (_ & Hdis & _).
      intros Hin. apply (Hdis c Hin). simpl. left. }
    assert (Hstep : coerce_column parse_numeric (mkFrame n (pre ++ (c, s) :: t), acc) c
                    = (mkFrame n (pre ++ (c, to_numeric parse_numeric s) :: t),
                       if isna_all (to_numeric parse_numeric s) then acc else acc ++ [c])).
    { unfold coerce_column, getitem, setitem. cbn [columns n_rows].
      rewrite lookup_col_skip by done.
      rewrite assign_col_skip by done.
      by rewrite lookup_col_skip by done. }
    rewrite fmap_cons. cbn [fold_left fst]. rewrite Hstep.
    replace (pre ++ (c, to_numeric parse_numeric s) :: t)
      with ((pre ++ [(c, to_numeric parse_numeric s)]) ++ t)
      by (by rewrite <- app_assoc).
    rewrite IH.
    + rewrite <- app_assoc. simpl. f_equal.
      unfold promoted. rewrite filter_cons. simpl.
      destruct (isna_all (to_numeric parse_numeric s)) eqn:Hna.
      * by rewrite decide_False by done.
      * rewrite decide_True by done. simpl. by rewrite <- app_assoc.
    + rewrite <- app_assoc. simpl.
      rewrite !fmap_app in *. simpl in *. exact Hnd.
Qed.

Lemma basic_statistics_frame (df : DataFrame) :
  NoDup (column_names df) →
  (_get_basic_statistics parse_numeric describe df).2
  = mkFrame (n_rows df) (coerced (columns df)).
Proof.
  intros Hnd. unfold _get_basic_statistics, column_names.
  destruct df as [n cols]. simpl in *.
  pose proof (coerce_fold n [] cols (select_number (mkFrame n cols)) Hnd) as Hf.
  simpl in Hf. rewrite Hf. reflexivity.
Qed.

Lemma basic_statistics_numeric_columns (df : DataFrame) :
  NoDup (column_names df) →
  numeric_columns (_get_basic_statistics parse_numeric describe df).1
  = list_set (select_number df ++ promoted (columns df)).
Proof.
  intros Hnd. unfold _get_basic_statistics, column_names.
  destruct df as [n cols]. simpl in *.
  pose proof (coerce_fold n [] cols (select_number (mkFrame n cols)) Hnd) as Hf.
  simpl in Hf. rewrite Hf. reflexivity.
Qed.

(** A text column no field of which parses is coerced to nulls only. *)
Lemma to_numeric_unparsed (o : option string) (l : list (option string)) :
  Forall (fun o => coerce_entry parse_numeric o = None) (o :: l) →
  to_numeric parse_numeric (ObjectSeries (o :: l))
  = FloatSeries (replicate (length (o :: l)) NaN).
Proof.
  intros Hall. unfold to_numeric.
  assert (Hp : coerce_entry parse_numeric <$> (o :: l) = replicate (length (o :: l)) None).
  { induction Hall as [|x xs Hx _ IH]; [done|].
    rewrite fmap_cons, Hx, IH. reflexivity. }
  rewrite Hp, fmap_replicate. reflexivity.
Qed.

Lemma null_count_all_nan (n : nat) : null_count (FloatSeries (replicate n NaN)) = n.
Proof.
  unfold null_count. cbn [isna]. rewrite fmap_replicate. cbn [is_nan].
  induction n as [|n IH]; [done|].
  cbn [replicate]. rewrite filter_cons, decide_True by done.
  cbn [length]. by rewrite IH.
Qed.

Lemma isna_all_nan (n : nat) : isna_all (FloatSeries (replicate n NaN)) = true.
Proof. unfold isna_all. simpl. induction n as [|n IH]; [done | exact IH]. Qed.

(** C2, for tables with at least one row: [_get_basic_statistics]
    replaces every column of the table by its numeric coercion, whether
    or not the column is promoted; a text column none of whose fields
    parses is left with nulls only, and when the table has at least one
    row the missing-values section then reports it at 100 and the
    column-type section gives it a numeric label. *)
Theorem basic_statistics_coerces_every_column (df : DataFrame) :
  aligned df →
  let df' := (_get_basic_statistics parse_numeric describe df).2 in
  n_rows df' = n_rows df ∧
  columns df' = (fun c => (c.1, to_numeric parse_numeric c.2)) <$> columns df ∧
  ∀ col l,
    (0 < n_rows df)%nat →
    getitem df col = Some (ObjectSeries l) →
    Forall (fun o => coerce_entry parse_numeric o = None) l →
    getitem df' col = Some (FloatSeries (replicate (length l) NaN)) ∧
    null_count (FloatSeries (replicate (length l) NaN)) = n_rows df' ∧
    (∃ v, _analyze_missing_values df' !! col = Some v ∧ feq v (Fin 100)) ∧
    (∃ label, _get_column_types df' !! col = Some label ∧ numeric_label label).
Proof.
  intros [Hnd Hlen] df'. subst df'. rewrite basic_statistics_frame by done.
  simpl. split; [done|]. split; [done|].
  intros col l Hrows Hcol Hall.
  assert (Hl : length l = n_rows df).
  { apply lookup_col_elem_of in Hcol.
    rewrite Forall_forall in Hlen. exact (Hlen _ Hcol). }
  destruct l as [|o l]; [simpl in Hl; lia|].
  assert (Hget : getitem (mkFrame (n_rows df) (coerced (columns df))) col
                 = Some (FloatSeries (replicate (length (o :: l)) NaN))).
  { unfold getitem, coerced. simpl. rewrite lookup_col_fmap.
    unfold getitem in Hcol. rewrite Hcol. simpl. f_equal.
    by apply to_numeric_unparsed. }
  split; [exact Hget|]. rewrite null_count_all_nan. split; [done|].
  split.
  - exists (Fin (of_nat (n_rows df) / of_nat (n_rows df) * 100)).
    assert (Hq : (of_nat (n_rows df) / of_nat (n_rows df) * 100 == 100)%Q).
    { pose proof (of_nat_pos _ Hrows) as Hpos. field.
      intros Hz. rewrite Hz in Hpos. by apply Qlt_irrefl in Hpos. }
    split; [|exact Hq].
    unfold _analyze_missing_values. apply map_lookup_filter_Some. split.
    + unfold missing_percentages. simpl.
      rewrite (lookup_mapped_columns
                 (fun s => fmul (div_len (null_count s) (n_rows df)) (Fin 100))).
      unfold getitem in Hget. cbn [columns] in Hget. rewrite Hget.
      cbn [fmap option_fmap option_map].
      rewrite null_count_all_nan, Hl. unfold div_len.
      destruct (n_rows df); [lia | done].
    + simpl. unfold fgt. apply flt_spec. by rewrite Hq.
  - exists "float64". split; [|by right].
    unfold _get_column_types. simpl.
    rewrite (lookup_mapped_columns (fun s => dtype_str (s_dtype s))).
    unfold getitem in Hget. cbn [columns] in Hget. by rewrite Hget.
Qed.

End Coercion.

(** The table [spread]: its text column "t" has the field "7", so the
    statement is applied to the all-text table [two_text]. *)
Lemma basic_statistics_coerces_every_column_witness :
  aligned two_text ∧
  (0 < n_rows two_text)%nat ∧
  getitem two_text "a" = Some (ObjectSeries [Some "x"; Some "y"]) ∧
  Forall (fun o => coerce_entry parse_decimal o = None) [Some "x"; Some "y"] ∧
  ∃ v, _analyze_missing_values
         (_get_basic_statistics parse_decimal describe_unreached two_text).2 !! "a" = Some v
       ∧ feq v (Fin 100).
Proof.
  assert (Ha : aligned two_text).
  { split; [apply (bool_decide_unpack _); by vm_compute|].
    repeat constructor. }
  assert (Hf : Forall (fun o => coerce_entry parse_decimal o = None) [Some "x"; Some "y"]).
  { repeat constructor. }
  split; [exact Ha|]. split; [simpl; lia|]. split; [reflexivity|]. split; [exact Hf|].
  destruct (basic_statistics_coerces_every_column parse_decimal describe_unreached
              two_text Ha) as (_ & _ & H).
  destruct (H "a" [Some "x"; Some "y"]) as (_ & _ & Hm & _);
    [simpl; lia | reflexivity | exact Hf | exact Hm].
Defined.

(** C2 as stated fails on a header-only file: its text column has no
    field that parses, yet after the coercion the missing-values
    section has no entry for it (0/0 is NaN, and NaN > 0 is false);
    the type label is the numeric "int64". *)
Lemma basic_statistics_header_only_not_missing :
  getitem header_only "t" = Some (ObjectSeries []) ∧
  _analyze_missing_values
    (_get_basic_statistics parse_decimal describe_unreached header_only).2 !! "t" = None ∧
  _get_column_types
    (_get_basic_statistics parse_decimal describe_unreached header_only).2 !! "t"
    = Some "int64".
Proof. by vm_compute. Qed.

(** ** Outliers *)

Lemma flagged_finite_bounds (lower upper x : float) :
  flagged lower upper x = true → (∃ l, lower = Fin l) ∨ (∃ u, upper = Fin u).
Proof.
  unfold flagged, fgt. rewrite orb_true_iff.
  intros [H|H]; apply flt_finite in H as (a & b & Ha & Hb & _); eauto.
Qed.

Section Outliers.

Variable quantile : list float -> Q -> exn + float.

(** The loop of [_detect_outliers] always returns.  It stores an entry
    for exactly the columns whose [try] block produced one, and prints
    one line per column whose block raised; nothing else changes. *)
Lemma detect_loop_returns (df : DataFrame) (cols : list string)
    (acc : gmap string outlier_report) (w : world) :
  ∃ out,
    detect_loop quantile df cols acc w
    = (inr out,
       World (stdout w ++
              omap (fun col => match column_outliers quantile df col with
                               | inl e => Some (outlier_message col e)
                               | inr _ => None
                               end) cols)
             (files w) (write_log w) (dirs w) (http_calls w) (sleeps w)) ∧
    ∀ col,
      out !! col = match column_outliers quantile df col with
                   | inr (Some r) => if decide (col ∈ cols) then Some r else acc !! col
                   | _ => acc !! col
                   end.
Proof.
  revert acc w. induction cols as [|c rest IH]; intros acc w.
  - exists acc. split.
    + simpl. rewrite app_nil_r. by destruct w.
    + intros col. by destruct (column_outliers quantile df col) as [|[r|]].
  - cbn [detect_loop omap list_omap].
    destruct (column_outliers quantile df c) as [e|[r0|]] eqn:Hc.
    + unfold bind, print. cbn.
      destruct (IH acc (World (stdout w ++ [outlier_message c e]) (files w)
                  (write_log w) (dirs w) (http_calls w) (sleeps w)))
        as (out & Hrun & Hout).
      exists out. split.
      * rewrite Hrun. cbn. by rewrite <- app_assoc.
      * intros col. rewrite Hout.
        destruct (column_outliers quantile df col) as [|[r|]] eqn:Hcol; try done.
        assert (col ≠ c) by (intros ->; congruence).
        destruct (decide (col ∈ rest)) as [Hin|Hin].
        -- rewrite decide_True by (by right). done.
        -- rewrite decide_False; [done|]. rewrite elem_of_cons. tauto.
    + destruct (IH (<[c := r0]> acc) w) as (out & Hrun & Hout).
      exists out. split; [exact Hrun|].
      intros col. rewrite Hout.
      destruct (decide (col = c)) as [->|Hne].
      * rewrite Hc, lookup_insert_eq.
        rewrite (decide_True (P := c ∈ c :: rest)) by left.
        by destruct (decide (c ∈ rest)).
      * rewrite lookup_insert_ne by done.
        destruct (column_outliers quantile df col) as [|[r|]] eqn:Hcol; try done.
        destruct (decide (col ∈ rest)) as [Hin|Hin].
        -- rewrite decide_True by (by right). done.
        -- rewrite decide_False; [done|]. rewrite elem_of_cons. tauto.
    + destruct (IH acc w) as (out & Hrun & Hout).
      exists out. split; [exact Hrun|].
      intros col. rewrite Hout.
      destruct (column_outliers quantile df col) as [|[r|]] eqn:Hcol; try done.
      assert (col ≠ c) by (intros ->; congruence).
      destruct (decide (col ∈ rest)) as [Hin|Hin].
      * rewrite decide_True by (by right). done.
      * rewrite decide_False; [done|]. rewrite elem_of_cons. tauto.
Qed.

(** What a stored entry is made of. *)
Lemma column_outliers_entry (df : DataFrame) (col : string) (r : outlier_report) :
  column_outliers quantile df col = inr (Some r) →
  ∃ s q1 q3,
    getitem df col = Some s ∧
    quantile (float_values s) (1 # 4) = inr (Fin q1) ∧
    quantile (float_values s) (3 # 4) = inr (Fin q3) ∧
    lower_bound r = Fin (iqr_lower q1 q3) ∧
    upper_bound r = Fin (iqr_upper q1 q3) ∧
    total_outliers r
      = length (filter (fun x => flagged (lower_bound r) (upper_bound r) x = true)
                       (float_values s)) ∧
    (0 < total_outliers r)%nat ∧
    (0 < n_rows df)%nat ∧
    percentage r = Fin (of_nat (total_outliers r) / of_nat (n_rows df) * 100).
Proof.
  unfold column_outliers. intros H.
  destruct (getitem df col) as [s|]; [|done].
  destruct (quantile (float_values s) (1 # 4)) as [|Q1] eqn:H1; [done|].
  destruct (quantile (float_values s) (3 # 4)) as [|Q3] eqn:H3; [done|].
  cbv zeta in H.
  set (lower := fsub Q1 (fmul (Fin (3 # 2)) (fsub Q3 Q1))) in *.
  set (upper := fadd Q3 (fmul (Fin (3 # 2)) (fsub Q3 Q1))) in *.
  destruct (filter (fun x => flagged lower upper x = true) (float_values s))
    as [|x rest] eqn:Hf; [done|].
  cbn [length] in H.
  destruct (n_rows df) as [|n] eqn:Hn; [done|].
  injection H as <-. cbn [lower_bound upper_bound total_outliers percentage].
  assert (Hx : flagged lower upper x = true).
  { assert (Hin : x ∈ filter (fun x => flagged lower upper x = true) (float_values s))
      by (rewrite Hf; left).
    by apply list_elem_of_filter in Hin as [? _]. }
  assert (HQ : ∃ q1 q3, Q1 = Fin q1 ∧ Q3 = Fin q3).
  { apply flagged_finite_bounds in Hx. subst lower upper.
    destruct Q1 as [|q1], Q3 as [|q3]; simpl in Hx;
      try (destruct Hx as [[? ?]|[? ?]]; discriminate).
    eauto. }
  destruct HQ as (q1 & q3 & -> & ->).
  exists s, q1, q3. rewrite Hf. cbn [length].
  repeat split; try done; lia.
Qed.

(** C9: the outlier loop never raises.  A numeric column whose
    computation raises is printed and gets no entry; every other
    numeric column gets exactly the entry that its own computation
    yields, whatever happened to the columns around it. *)
Theorem detect_outliers_skips_failing_column (df : DataFrame) (w : world) :
  ∃ outliers w',
    _detect_outliers quantile df w = (inr outliers, w') ∧
    (∀ col, col ∈ select_number df →
       match column_outliers quantile df col with
       | inl e => outliers !! col = None ∧ outlier_message col e ∈ stdout w'
       | inr None => outliers !! col = None
       | inr (Some r) => outliers !! col = Some r
       end) ∧
    (∀ col, col ∉ select_number df → outliers !! col = None).
Proof.
  unfold _detect_outliers.
  destruct (detect_loop_returns df (select_number df) ∅ w) as (out & Hout & Hlook).
  eexists out, _. split; [exact Hout|]. split.
  - intros col Hin. rewrite Hlook.
    destruct (column_outliers quantile df col) as [e|[r|]] eqn:Hc.
    + split; [apply lookup_empty|]. cbn [stdout].
      apply elem_of_app. right. apply list_elem_of_omap.
      exists col. split; [done|]. by rewrite Hc.
    + by rewrite decide_True.
    + apply lookup_empty.
  - intros col Hnin. rewrite Hlook.
    destruct (column_outliers quantile df col) as [e|[r|]];
      try apply lookup_empty.
    rewrite decide_False by done. apply lookup_empty.
Qed.

End Outliers.

(** A run of the loop in which the quantile of the column "w", which has
    a null entry, raises: "w" has no entry and a line is printed, the
    column "v" is reported as before. *)
Example detect_outliers_failing_column :
  ∃ outliers w',
    _detect_outliers failing_quantile spread initial_world = (inr outliers, w') ∧
    column_outliers failing_quantile spread "w" = inl (OtherError "quantile failed") ∧
    outliers !! "w" = None ∧
    stdout w' = [outlier_message "w" (OtherError "quantile failed")] ∧
    (∃ r, outliers !! "v" = Some r ∧ total_outliers r = 1%nat).
Proof.
  eexists _, _. split; [vm_compute; reflexivity|].
  split; [reflexivity|]. split; [reflexivity|]. split; [reflexivity|].
  eexists. split; [vm_compute; reflexivity | reflexivity].
Qed.

(** ** Outliers over an open arithmetic *)


Section OpenOutliers.

Context {F : Type}.
Variable ar : arithmetic F.
Variable quantile : list F -> Q -> exn + F.





End OpenOutliers.

(** Over the idealised arithmetic the loop is the one that
    [analyze_dataset] runs. *)
Lemma column_outliers_rationals (quantile : list float → Q → exn + float)
    (df : DataFrame) (col : string) :
  column_outliers quantile df col
  = match column_outliers_over rationals quantile df col with
    | inl e => inl e
    | inr o => inr (report_of_entry <$> o)
    end.
Proof.
  unfold column_outliers, column_outliers_over.
  destruct (getitem df col) as [s|]; [|done].
  change (ar_values rationals s) with (float_values s).
  destruct (quantile (float_values s) (1 # 4)) as [|Q1]; [done|].
  destruct (quantile (float_values s) (3 # 4)) as [|Q3]; [done|].
  cbv zeta.
  change (filter (fun x => flagged_over rationals (lower_bound_over rationals Q1 Q3)
                             (upper_bound_over rationals Q1 Q3) x = true) (float_values s))
    with (filter (fun x => flagged (fsub Q1 (fmul (Fin (3 # 2)) (fsub Q3 Q1)))
                             (fadd Q3 (fmul (Fin (3 # 2)) (fsub Q3 Q1))) x = true)
                 (float_values s)).
  destruct (length (filter _ (float_values s))) as [|k]; [done|].
  by destruct (n_rows df).
Qed.

Lemma detect_loop_rationals (quantile : list float → Q → exn + float)
    (df : DataFrame) (cols : list string) (acc : gmap string (outlier_entry float))
    (w : world) :
  detect_loop quantile df cols (report_of_entry <$> acc) w
  = match detect_loop_over rationals quantile df cols acc w with
    | (inl e, w') => (inl e, w')
    | (inr out, w') => (inr (report_of_entry <$> out), w')
    end.
Proof.
  revert acc w. induction cols as [|c rest IH]; intros acc w; [done|].
  cbn [detect_loop detect_loop_over]. rewrite column_outliers_rationals.
  destruct (column_outliers_over rationals quantile df c) as [e|[r|]]; cbn [fmap option_fmap option_map].
  - unfold bind, print. cbn. apply IH.
  - rewrite <- fmap_insert. apply IH.
  - apply IH.
Qed.

Lemma detect_outliers_rationals (quantile : list float → Q → exn + float)
    (df : DataFrame) (w : world) :
  _detect_outliers quantile df w
  = match _detect_outliers_over rationals quantile df w with
    | (inl e, w') => (inl e, w')
    | (inr out, w') => (inr (report_of_entry <$> out), w')
    end.
Proof.
  unfold _detect_outliers, _detect_outliers_over.
  rewrite <- detect_loop_rationals. by rewrite fmap_empty.
Qed.

(** In doubles the column "v" of [spread] has the quartiles 2 and 4 and
    one row, the value 100, above the upper bound 7: one row in five,
    20 percent.  The column "w" has no row outside its bounds 1 and 3. *)
Example detect_outliers_doubles_spread :
  ∃ outliers w',
    _detect_outliers_over doubles linear_quantile64 spread initial_world
    = (inr outliers, w') ∧
    outliers !! "v" = Some (mkEntry 1 (double_of_Z 20) (double_of_Z (-1)) (double_of_Z 7)) ∧
    outliers !! "w" = None.
Proof. eexists _, _. split; [reflexivity|]. split; by vm_compute. Qed.

(** Where rounding decides: the largest value of the column of [wide]
    lies above the upper bound computed in rationals and is equal to the
    upper bound computed in doubles, so the program, which computes in
    doubles, reports nothing. *)
Example detect_outliers_wide :
  (∃ w', _detect_outliers_over doubles linear_quantile64 wide initial_world = (inr ∅, w')) ∧
  (∃ outliers w' r,
     _detect_outliers_over rationals linear_quantile wide initial_world
     = (inr outliers, w') ∧
     outliers !! "x" = Some r ∧ e_total_outliers r = 1%nat).
Proof.
  split.
  - eexists. by vm_compute.
  - eexists _, _, _. split; [reflexivity|]. split; [by vm_compute | reflexivity].
Qed.


(** ** The analysis as a whole *)

Section Analysis.

Variable parse_numeric : string -> option number.
Variable quantile : list float -> Q -> exn + float.
Variable pearson : list float -> list float -> float.
Variable describe : list float -> gmap string float.

(** [analyze_dataset] always returns; its sections are those of the
    five sub-computations on the coerced table, and apart from the
    lines printed it leaves the world as it was. *)
Lemma analyze_dataset_returns (table : DataFrame) (w : world) :
  ∃ a w',
    analyze_dataset parse_numeric quantile pearson describe table w
    = (inr (a, (_get_basic_statistics parse_numeric describe table).2), w') ∧
    a_basic_stats a = (_get_basic_statistics parse_numeric describe table).1 ∧
    a_missing_values a
      = _analyze_missing_values (_get_basic_statistics parse_numeric describe table).2 ∧
    a_correlations a
      = _compute_correlations pearson (_get_basic_statistics parse_numeric describe table).2 ∧
    a_column_types a
      = _get_column_types (_get_basic_statistics parse_numeric describe table).2 ∧
    files w' = files w ∧ write_log w' = write_log w ∧ dirs w' = dirs w ∧
    http_calls w' = http_calls w ∧ sleeps w' = sleeps w.
Proof.
  unfold analyze_dataset.
  destruct (_get_basic_statistics parse_numeric describe table) as [stats df1].
  unfold _detect_outliers, bind.
  destruct (detect_loop_returns quantile df1 (select_number df1) ∅ w)
    as (out & Hout & _).
  rewrite Hout. eexists _, _. split; [reflexivity|]. by cbn.
Qed.

(** On the table as it stands when [_compute_correlations] is called,
    fewer than two columns of a number dtype give an empty section. *)
Lemma compute_correlations_fewer_than_two (table : DataFrame) :
  (length (select_number table) < 2)%nat →
  _compute_correlations pearson table = ∅.
Proof.
  intros Hfew. unfold _compute_correlations. by rewrite decide_False by lia.
Qed.

End Analysis.

(** C7: a table with exactly one numeric column, "n", and a text
    column "t".  Basic statistics list "n" alone as numeric, yet the
    correlation section is not empty: the coercion has left "t" as an
    all-null float column, and the matrix has a row for it. *)
Theorem analyze_one_numeric_one_text_correlations
    (pearson : list float -> list float -> float)
    (describe : list float -> gmap string float) :
  ∃ a table' w',
    analyze_dataset parse_decimal linear_quantile pearson describe
      one_numeric_one_text initial_world = (inr (a, table'), w') ∧
    select_number one_numeric_one_text = ["n"] ∧
    numeric_columns (a_basic_stats a) = ["n"] ∧
    getitem table' "t" = Some (FloatSeries [NaN; NaN; NaN]) ∧
    select_number table' = ["n"; "t"] ∧
    a_correlations a ≠ ∅ ∧
    ∃ row, a_correlations a !! "t" = Some row ∧
           row !! "n" = Some (pearson [Fin 1; Fin 2; Fin 3] [NaN; NaN; NaN]).
Proof.
  eexists _, _, _. split; [vm_compute; reflexivity|].
  split; [reflexivity|]. split; [reflexivity|]. split; [reflexivity|].
  split; [reflexivity|].
  assert (Hrow : ∃ row,
    _compute_correlations pearson
      (mkFrame 3 [("n", IntSeries [1; 2; 3]); ("t", FloatSeries [NaN; NaN; NaN])]) !! "t"
      = Some row ∧
    row !! "n" = Some (pearson [Fin 1; Fin 2; Fin 3] [NaN; NaN; NaN])).
  { eexists. split; [vm_compute; reflexivity | vm_compute; reflexivity]. }
  split; [|exact Hrow].
  destruct Hrow as (row & Hrow & _). intros Hempty.
  cbn [a_correlations] in Hempty.
  change (_compute_correlations pearson
            (mkFrame 3 [("n", IntSeries [1; 2; 3]); ("t", FloatSeries [NaN; NaN; NaN])]) = ∅)
    in Hempty.
  rewrite Hempty, lookup_empty in Hrow. discriminate.
Qed.

(** C8: a table of two text columns: no column is typed numeric and no
    field survives the coercion.  The analysis returns, with the row and
    column counts and an empty summary, but the correlation section is
    not empty: it is the matrix of the two all-null columns that the
    coercion left behind. *)
Theorem analyze_two_text_columns_correlations
    (pearson : list float -> list float -> float)
    (describe : list float -> gmap string float) :
  ∃ a table' w',
    analyze_dataset parse_decimal linear_quantile pearson describe
      two_text initial_world = (inr (a, table'), w') ∧
    select_number two_text = [] ∧
    columns table' = [("a", FloatSeries [NaN; NaN]); ("b", FloatSeries [NaN; NaN])] ∧
    total_rows (a_basic_stats a) = 2%nat ∧
    total_columns (a_basic_stats a) = 2%nat ∧
    numeric_columns (a_basic_stats a) = [] ∧
    summary (a_basic_stats a) = ∅ ∧
    a_correlations a ≠ ∅ ∧
    ∃ row, a_correlations a !! "a" = Some row ∧
           row !! "b" = Some (pearson [NaN; NaN] [NaN; NaN]).
Proof.
  eexists _, _, _. split; [vm_compute; reflexivity|].
  split; [reflexivity|]. split; [reflexivity|]. split; [reflexivity|].
  split; [reflexivity|]. split; [reflexivity|]. split; [reflexivity|].
  assert (Hrow : ∃ row,
    _compute_correlations pearson
      (mkFrame 2 [("a", FloatSeries [NaN; NaN]); ("b", FloatSeries [NaN; NaN])]) !! "a"
      = Some row ∧
    row !! "b" = Some (pearson [NaN; NaN] [NaN; NaN])).
  { eexists. split; [vm_compute; reflexivity | vm_compute; reflexivity]. }
  split; [|exact Hrow].
  destruct Hrow as (row & Hrow & _). intros Hempty.
  cbn [a_correlations] in Hempty.
  change (_compute_correlations pearson
            (mkFrame 2 [("a", FloatSeries [NaN; NaN]); ("b", FloatSeries [NaN; NaN])]) = ∅)
    in Hempty.
  rewrite Hempty, lookup_empty in Hrow. discriminate.
Qed.

(** ** The pipeline *)

(** Worlds that differ by printed lines only. *)
Lemma try_encodings_prints (E : env) (path : string) encs (w : world) :
  ∃ lines,
    (try_encodings E path encs w).2
    = World (stdout w ++ lines) (files w) (write_log w) (dirs w)
            (http_calls w) (sleeps w).
Proof.
  revert w. induction encs as [|enc rest IH]; intros w.
  - exists []. simpl. rewrite app_nil_r. by destruct w.
  - simpl. destruct (read_csv E path enc) as [e|table].
    + destruct e;
        try (exists []; simpl; rewrite app_nil_r; by destruct w);
        unfold bind, print; simpl;
        match goal with
        | |- ∃ _, (try_encodings _ _ _ ?w1).2 = _ =>
            destruct (IH w1) as [lines Hl]; rewrite Hl; simpl;
            eexists; by rewrite <- app_assoc
        end.
    + unfold bind, print, ret. simpl. by eexists.
Qed.

Lemma read_csv_robust_http_calls (E : env) (path : string) (w : world) :
  http_calls (_read_csv_robust E path w).2 = http_calls w.
Proof.
  unfold _read_csv_robust, bind.
  destruct (try_encodings_prints E path (candidates E path) w) as [lines Hl].
  destruct (try_encodings E path (candidates E path) w) as [[e|[table|]] w1];
    simpl in Hl; subst w1; try done.
  unfold join. by destruct (mapM id (candidates E path)).
Qed.

Section Main.

Variable parse_numeric : string -> option number.
Variable quantile : list float -> Q -> exn + float.
Variable pearson : list float -> list float -> float.
Variable describe : list float -> gmap string float.

(** [main] with a positional argument, step by step. *)
Lemma main_with_path (E : env) (a0 path : string) (rest : list string) (w : world) :
  main parse_numeric quantile pearson describe E (a0 :: path :: rest) w
  = match _read_csv_robust E path w with
    | (inl e, w1) => (Uncaught e, w1)
    | (inr table, w1) =>
        match run_analysis parse_numeric quantile pearson describe E
                (mkAnalyzer path table (dataset_name_of path) (environ_token E)) w1 with
        | (inl e, w2) => (Uncaught e, w2)
        | (inr _, w2) => (Completed, w2)
        end
    end.
Proof.
  unfold main, init_analyzer, bind, ret.
  destruct (_read_csv_robust E path w) as [[e|table] w1]; [done|].
  by destruct (run_analysis _ _ _ _ _ _ _) as [[?|?] ?].
Qed.

(** Without a positional argument: the usage line and exit code 1. *)
Lemma main_usage (E : env) (argv : list string) (w : world) :
  (length argv < 2)%nat →
  main parse_numeric quantile pearson describe E argv w
  = (Exited 1, World (stdout w ++ [usage]) (files w) (write_log w) (dirs w)
                     (http_calls w) (sleeps w)).
Proof.
  intros Hlen. destruct argv as [|a0 [|a1 rest]]; simpl in Hlen; try lia; reflexivity.
Qed.

End Main.

(** C10: the program is given a readable file and every response is a
    200 whose JSON lacks the narrative text.  Ingestion succeeds, yet the
    run does not complete: the [RetryError] that the narration call
    raises after its third attempt leaves [main] uncaught. *)
Theorem main_narration_retry_error_escapes :
  let E := env_bad_body one_text in
  let argv := ["autolysis.py"; "data.csv"] in
  let run := main parse_decimal linear_quantile pearson_unreached describe_unreached
                  E argv initial_world in
  (_read_csv_robust E "data.csv" initial_world).1 = inr one_text ∧
  run.1 = Uncaught RetryError ∧
  http_calls run.2 = 3%nat ∧
  ¬ (run.1 = Completed ∨
     ∃ e, (_read_csv_robust E "data.csv" initial_world).1 = inl e ∧ run.1 = Uncaught e).
Proof.
  split; [reflexivity|]. split; [reflexivity|]. split; [reflexivity|].
  intros [H|(e & H & _)]; vm_compute in H; discriminate.
Qed.

(** A second way out of [main] that is neither completion nor an
    ingestion failure: the input file has no extension and lies in the
    working directory, so the dataset directory would have its name;
    [os.makedirs] raises [FileExistsError] and nothing is produced. *)
Example main_dataset_name_taken :
  let w := World [] {["data" := "t"]} [] [] 0 [] in
  let run := main parse_decimal linear_quantile pearson_unreached describe_unreached
                  (env_all_good one_text) ["autolysis.py"; "data"] w in
  run.1 = Uncaught FileExistsError ∧
  dirs run.2 = [] ∧ write_log run.2 = [] ∧ http_calls run.2 = 0%nat.
Proof. by vm_compute. Qed.

(** * Further properties of the code *)

(** ** Ingestion *)

(** The candidates: the detector's answer first, no candidate twice, and
    beside the detector's answer exactly the six fixed encodings. *)
Theorem candidates_cover_fallbacks (E : env) (path : string) :
  head (candidates E path) = Some (chardet_detect E path) ∧
  NoDup (candidates E path) ∧
  (∀ enc, enc ∈ candidates E path ↔
          enc = chardet_detect E path ∨ enc ∈ encodings_to_try) ∧
  (6 <= length (candidates E path) <= 7)%nat.
Proof.
  split; [by rewrite candidates_order|].
  split; [apply candidates_NoDup|]. split.
  - intros enc. rewrite candidates_order, elem_of_cons, list_elem_of_filter.
    destruct (decide (enc = chardet_detect E path)); tauto.
  - rewrite candidates_order. cbn [length].
    pose proof (length_filter (fun k => k ≠ chardet_detect E path) encodings_to_try) as Hle.
    change (length encodings_to_try) with 6%nat in Hle.
    split; [|lia].
    destruct (decide (chardet_detect E path ∈ encodings_to_try)) as [Hin|Hnin].
    + (* one fixed encoding is filtered out, the other five stay *)
      unfold encodings_to_try in *. rewrite !filter_cons, filter_nil.
      repeat (apply elem_of_cons in Hin as [->|Hin]; [by vm_compute|]).
      by apply elem_of_nil in Hin.
    + assert (Hall : filter (fun k => k ≠ chardet_detect E path) encodings_to_try
                     = encodings_to_try).
      { clear Hle. induction encodings_to_try as [|x l IH]; [done|].
        rewrite filter_cons. rewrite decide_True.
        - f_equal. apply IH. intros Hl. apply Hnin. by right.
        - intros ->. apply Hnin. left. }
      rewrite Hall. simpl. lia.
Qed.

Lemma try_encodings_success_world (E : env) (path : string) before enc after table w :
  Forall (fun e => moves_on (read_csv E path e)) before →
  read_csv E path enc = inr table →
  ∃ lines,
    length lines = length before ∧
    try_encodings E path (before ++ enc :: after) w
    = (inr (Some table),
       World (stdout w ++ lines ++ [success_line enc]) (files w) (write_log w)
             (dirs w) (http_calls w) (sleeps w)).
Proof.
  revert w. induction before as [|e t IH]; intros w Hall Hok.
  - exists []. split; [done|]. simpl. by rewrite Hok.
  - apply Forall_cons in Hall as [He Ht].
    cbn [app try_encodings].
    destruct He as [He|He]; rewrite He; unfold bind, print; cbn;
      match goal with
      | |- ∃ _, _ ∧ try_encodings _ _ _ ?w1 = _ =>
          destruct (IH w1 Ht Hok) as (lines & Hlen & Hrun); rewrite Hrun; cbn;
          eexists (_ :: lines); split; [by rewrite <- Hlen|];
          by rewrite <- app_assoc
      end.
Qed.

(** The first candidate that parses wins: when every candidate before it
    failed to decode or to parse, its table is returned, one line per
    failed candidate and the success line are printed, and nothing else
    changes. *)
Theorem read_csv_robust_first_success (E : env) (path : string)
    before enc after table (w : world) :
  candidates E path = before ++ enc :: after →
  Forall (fun e => moves_on (read_csv E path e)) before →
  read_csv E path enc = inr table →
  ∃ lines,
    length lines = length before ∧
    _read_csv_robust E path w
    = (inr table,
       World (stdout w ++ lines ++ [success_line enc]) (files w) (write_log w)
             (dirs w) (http_calls w) (sleeps w)).
Proof.
  intros Hc Hall Hok. unfold _read_csv_robust. rewrite Hc.
  destruct (try_encodings_success_world E path before enc after table w Hall Hok)
    as (lines & Hlen & Hrun).
  exists lines. split; [done|]. unfold bind. by rewrite Hrun.
Qed.

Lemma read_csv_robust_first_success_witness :
  ∃ lines,
    length lines = 1%nat ∧
    _read_csv_robust (env_second_candidate spread) "data.csv" initial_world
    = (inr spread,
       World (lines ++ [success_line (Some "latin-1")]) ∅ [] [] 0%nat []).
Proof.
  destruct (read_csv_robust_first_success (env_second_candidate spread) "data.csv"
              [Some "utf-8"] (Some "latin-1")
              [Some "iso-8859-1"; Some "cp1252"; Some "utf-16"; Some "ascii"]
              spread initial_world) as (lines & Hlen & Hrun).
  - reflexivity.
  - constructor; [by left | constructor].
  - reflexivity.
  - exists lines. split; [exact Hlen | exact Hrun].
Defined.

(** An error of a candidate that is neither a decoding nor a parsing
    error leaves ingestion as it is, not wrapped and with the candidates
    after it untried. *)
Theorem read_csv_robust_other_error_propagates (E : env) (path : string)
    before enc after e (w : world) :
  candidates E path = before ++ enc :: after →
  Forall (fun e => moves_on (read_csv E path e)) before →
  read_csv E path enc = inl e →
  e ≠ UnicodeDecodeError → e ≠ ParserError →
  (_read_csv_robust E path w).1 = inl e.
Proof.
  intros Hc Hall Herr H1 H2. unfold _read_csv_robust, bind. rewrite Hc.
  pose proof (try_encodings_other_error E path before enc after e w Hall Herr H1 H2) as Hrun.
  destruct (try_encodings E path (before ++ enc :: after) w) as [r w1].
  simpl in Hrun. by subst r.
Qed.

Lemma read_csv_robust_other_error_propagates_witness :
  (_read_csv_robust (env_unknown_codec spread) "data.csv" initial_world).1
  = inl (OtherError "LookupError").
Proof.
  apply (read_csv_robust_other_error_propagates (env_unknown_codec spread) "data.csv"
           [] (Some "EUC-TW") encodings_to_try).
  - reflexivity.
  - constructor.
  - reflexivity.
  - discriminate.
  - discriminate.
Defined.

Lemma str_join_contains (sep name : string) (names : list string) :
  name ∈ names → contains (str_join sep names) name.
Proof.
  induction names as [|s rest IH]; intros Hin; [by apply elem_of_nil in Hin|].
  apply elem_of_cons in Hin as [->|Hin].
  - destruct rest as [|r rest'].
    + exists EmptyString, EmptyString. cbn. by rewrite append_empty_r.
    + exists EmptyString, (sep +:+ str_join sep (r :: rest')). reflexivity.
  - destruct rest as [|r rest']; [by apply elem_of_nil in Hin|].
    destruct (IH Hin) as (pre & post & Heq).
    exists (s +:+ sep +:+ pre), post.
    change (str_join sep (s :: r :: rest')) with (s +:+ sep +:+ str_join sep (r :: rest')).
    by rewrite Heq, !append_assoc.
Qed.

(** When the detector names an encoding and no candidate parses, the
    [ValueError] raised carries the name of every candidate tried. *)
Theorem read_csv_robust_error_names_candidates (E : env) (path : string)
    (detected : string) (w : world) :
  chardet_detect E path = Some detected →
  Forall (fun e => moves_on (read_csv E path e)) (candidates E path) →
  ∃ msg,
    (_read_csv_robust E path w).1 = inl (ValueError msg) ∧
    ∀ name, Some name ∈ candidates E path → contains msg name.
Proof.
  intros Hdet Hall.
  destruct (read_csv_robust_all_fail_named E path detected w Hdet Hall)
    as (names & Hnames & Hrun).
  eexists. split; [exact Hrun|].
  intros name Hin. rewrite Hnames in Hin.
  apply list_elem_of_fmap in Hin as (n & Heq & Hin). injection Heq as <-.
  destruct (str_join_contains ", " name names Hin) as (pre & post & Hj).
  unfold tried_message. rewrite Hj.
  exists ("Could not read the CSV file with any of the tried encodings. Tried: " +:+ pre), post.
  by rewrite !append_assoc.
Qed.

Lemma read_csv_robust_error_names_candidates_witness :
  ∃ msg,
    (_read_csv_robust env_no_parse "data.csv" initial_world).1 = inl (ValueError msg) ∧
    contains msg "ascii" ∧ contains msg "utf-16".
Proof.
  destruct (read_csv_robust_error_names_candidates env_no_parse "data.csv" "ascii"
              initial_world) as (msg & Hrun & Hnames).
  - reflexivity.
  - apply Forall_forall. intros e _. by right.
  - exists msg. split; [exact Hrun|].
    split; apply Hnames; apply (bool_decide_unpack _); by vm_compute.
Defined.

Lemma read_csv_robust_world (E : env) (path : string) (w : world) :
  ∃ lines,
    (_read_csv_robust E path w).2
    = World (stdout w ++ lines) (files w) (write_log w) (dirs w)
            (http_calls w) (sleeps w).
Proof.
  unfold _read_csv_robust, bind.
  destruct (try_encodings_prints E path (candidates E path) w) as [lines Hl].
  exists lines.
  destruct (try_encodings E path (candidates E path) w) as [[e|[table|]] w1];
    simpl in Hl; subst w1; try done.
  unfold join. by destruct (mapM id (candidates E path)).
Qed.

(** Ingestion only prints: it writes no file, creates no directory, sends
    no request and does not sleep, whether it returns or raises. *)
Theorem read_csv_robust_only_prints (E : env) (path : string) (w : world) :
  files (_read_csv_robust E path w).2 = files w ∧
  write_log (_read_csv_robust E path w).2 = write_log w ∧
  dirs (_read_csv_robust E path w).2 = dirs w ∧
  http_calls (_read_csv_robust E path w).2 = http_calls w ∧
  sleeps (_read_csv_robust E path w).2 = sleeps w ∧
  ∃ lines, stdout (_read_csv_robust E path w).2 = stdout w ++ lines.
Proof.
  destruct (read_csv_robust_world E path w) as [lines Hl]. rewrite Hl.
  repeat split; try done. by exists lines.
Qed.

(** ** The dataset name *)

Lemma rsplit_None (sep : ascii) (l : list ascii) : sep ∉ l → rsplit sep l = None.
Proof.
  induction l as [|x t IH]; intros Hn; [done|]. simpl.
  rewrite IH by (intros ?; apply Hn; by right).
  rewrite decide_False; [done|]. intros ->. apply Hn. left.
Qed.

Lemma rsplit_last (sep : ascii) (a b : list ascii) :
  sep ∉ b → rsplit sep (a ++ sep :: b) = Some (a, b).
Proof.
  intros Hb. induction a as [|x a IH]; simpl.
  - rewrite rsplit_None by done. by rewrite decide_True.
  - by rewrite IH.
Qed.

Lemma rsplit_Some (sep : ascii) (l a b : list ascii) :
  rsplit sep l = Some (a, b) → l = a ++ sep :: b ∧ sep ∉ b.
Proof.
  revert a b. induction l as [|x t IH]; intros a b; simpl; [done|].
  destruct (rsplit sep t) as [[a' b']|] eqn:Hr.
  - intros [= <- <-]. destruct (IH a' b' eq_refl) as [-> Hb]. done.
  - destruct (decide (x = sep)) as [->|]; [|done].
    intros [= <- <-]. split; [done|].
    intros Hin. clear IH. induction t as [|y t IH]; [by apply elem_of_nil in Hin|].
    simpl in Hr. destruct (rsplit sep t) as [[? ?]|] eqn:Ht; [done|].
    destruct (decide (y = sep)); [done|].
    apply elem_of_cons in Hin as [?|Hin]; [congruence|]. by apply IH.
Qed.

Lemma list_ascii_of_string_app (a b : string) :
  String.list_ascii_of_string (a +:+ b)
  = String.list_ascii_of_string a ++ String.list_ascii_of_string b.
Proof.
  induction a as [|x a IH]; [done|].
  change (x :: String.list_ascii_of_string (a +:+ b)
          = x :: (String.list_ascii_of_string a ++ String.list_ascii_of_string b)).
  by rewrite IH.
Qed.

Lemma basename_no_separator (p : list ascii) : "/"%char ∉ basename p.
Proof.
  unfold basename. destruct (rsplit "/"%char p) as [[a b]|] eqn:Hr.
  - by apply rsplit_Some in Hr as [_ ?].
  - intros Hin. clear -Hr Hin. induction p as [|x t IH]; [by apply elem_of_nil in Hin|].
    simpl in Hr. destruct (rsplit "/"%char t) as [[? ?]|]; [done|].
    destruct (decide (x = "/"%char)); [done|].
    apply elem_of_cons in Hin as [?|Hin]; [congruence | by apply IH].
Qed.

(** The name of the output directory is one path component: it never
    holds a slash, whatever the path given. *)
Theorem dataset_name_no_separator (path : string) :
  "/"%char ∉ String.list_ascii_of_string (dataset_name_of path).
Proof.
  unfold dataset_name_of. rewrite String.list_ascii_of_string_of_list_ascii.
  pose proof (basename_no_separator (String.list_ascii_of_string path)) as Hb.
  set (name := basename (String.list_ascii_of_string path)) in *.
  unfold splitext_root. destruct (rsplit "."%char name) as [[a b]|] eqn:Hr; [|done].
  destruct (forallb _ a); [done|].
  apply rsplit_Some in Hr as [Hname _]. intros Hin. apply Hb.
  rewrite Hname. apply elem_of_app. by left.
Qed.

(** For a file name made of a stem and an extension, with or without
    directories in front, the dataset name is the stem; only the last
    extension is taken off.  The stem must hold a character other than
    a dot. *)
Theorem dataset_name_is_stem (stem ext : string) :
  "/"%char ∉ String.list_ascii_of_string stem →
  "/"%char ∉ String.list_ascii_of_string ext →
  "."%char ∉ String.list_ascii_of_string ext →
  (∃ c, c ∈ String.list_ascii_of_string stem ∧ c ≠ "."%char) →
  dataset_name_of (stem +:+ "." +:+ ext) = stem ∧
  ∀ dir, dataset_name_of (dir +:+ "/" +:+ stem +:+ "." +:+ ext) = stem.
Proof.
  intros Hs He Hd (c & Hc & Hnd).
  assert (Hfile : "/"%char ∉ String.list_ascii_of_string stem
                                ++ "."%char :: String.list_ascii_of_string ext).
  { rewrite elem_of_app, elem_of_cons. intros [?|[?|?]]; [done | discriminate | done]. }
  assert (Hroot : splitext_root (String.list_ascii_of_string stem
                                  ++ "."%char :: String.list_ascii_of_string ext)
                  = String.list_ascii_of_string stem).
  { unfold splitext_root. rewrite rsplit_last by done.
    assert (Hf : forallb (fun c => bool_decide (c = "."%char))
                         (String.list_ascii_of_string stem) = false).
    { apply not_true_is_false. intros Hall. rewrite forallb_forall in Hall.
      apply list_elem_of_In in Hc. specialize (Hall c Hc).
      by apply bool_decide_eq_true in Hall. }
    by rewrite Hf. }
  split.
  - unfold dataset_name_of. rewrite list_ascii_of_string_app.
    change (String.list_ascii_of_string ("." +:+ ext))
      with ("."%char :: String.list_ascii_of_string ext).
    unfold basename. rewrite rsplit_None by done.
    rewrite Hroot. apply String.string_of_list_ascii_of_string.
  - intros dir. unfold dataset_name_of. rewrite !list_ascii_of_string_app.
    change (String.list_ascii_of_string "/") with ["/"%char].
    change (String.list_ascii_of_string ".") with ["."%char].
    cbn [app]. unfold basename. rewrite rsplit_last by done.
    rewrite Hroot. apply String.string_of_list_ascii_of_string.
Qed.

Lemma dataset_name_is_stem_witness :
  dataset_name_of "goodreads.v2.csv" = "goodreads.v2" ∧
  dataset_name_of "data/raw/goodreads.v2.csv" = "goodreads.v2".
Proof.
  destruct (dataset_name_is_stem "goodreads.v2" "csv") as [H1 H2].
  - apply (bool_decide_unpack _). by vm_compute.
  - apply (bool_decide_unpack _). by vm_compute.
  - apply (bool_decide_unpack _). by vm_compute.
  - exists "g"%char. split; [left | discriminate].
  - split; [exact H1 | exact (H2 "data/raw")].
Defined.

(** ** Basic statistics *)

Lemma fromkeys_fold_spec {K} `{EqDecision K} (l seen : list K) :
  NoDup seen →
  NoDup (fold_left (fun seen k => if decide (k ∈ seen) then seen else seen ++ [k]) l seen) ∧
  ∀ x, x ∈ fold_left (fun seen k => if decide (k ∈ seen) then seen else seen ++ [k]) l seen
       ↔ x ∈ seen ∨ x ∈ l.
Proof.
  revert seen. induction l as [|k t IH]; intros seen Hnd.
  - simpl. split; [done|]. intros x. rewrite elem_of_nil. tauto.
  - simpl. destruct (decide (k ∈ seen)) as [Hin|Hin].
    + destruct (IH seen Hnd) as [H1 H2]. split; [done|].
      intros x. rewrite H2, elem_of_cons. split; [tauto|].
      intros [?|[->|?]]; tauto.
    + assert (Hnd' : NoDup (seen ++ [k])).
      { apply NoDup_app. split; [done|]. split; [|apply NoDup_singleton].
        intros x Hx Hk. apply list_elem_of_singleton in Hk as ->. done. }
      destruct (IH _ Hnd') as [H1 H2]. split; [done|].
      intros x. rewrite H2, elem_of_app, list_elem_of_singleton, elem_of_cons. tauto.
Qed.

Lemma dict_fromkeys_spec {K} `{EqDecision K} (l : list K) :
  NoDup (dict_fromkeys l) ∧ ∀ x, x ∈ dict_fromkeys l ↔ x ∈ l.
Proof.
  unfold dict_fromkeys. destruct (fromkeys_fold_spec l [] (NoDup_nil_2)) as [H1 H2].
  split; [done|]. intros x. rewrite H2, elem_of_nil. tauto.
Qed.

Lemma lookup_col_Some_iff col s cols :
  NoDup cols.*1 → lookup_col col cols = Some s ↔ (col, s) ∈ cols.
Proof.
  intros Hnd. split; [apply lookup_col_elem_of|].
  induction cols as [|[c s0] t IH]; intros Hin; [by apply elem_of_nil in Hin|].
  simpl in *. apply NoDup_cons in Hnd as [Hc Ht].
  apply elem_of_cons in Hin as [[= <- <-]|Hin].
  - by rewrite decide_True.
  - rewrite decide_False; [by apply IH|].
    intros ->. apply Hc. apply list_elem_of_fmap. by exists (col, s).
Qed.

Lemma coerced_names (g : Series → Series) (cols : list (string * Series)) :
  ((fun c => (c.1, g c.2)) <$> cols).*1 = cols.*1.
Proof.
  induction cols as [|[c s] t IH]; [done|].
  rewrite !fmap_cons. cbn [fst]. f_equal. exact IH.
Qed.

Section CoercionShape.

Variable parse_numeric : string -> option number.
Variable describe : list float -> gmap string float.

(** The coercion never yields an object column. *)
Lemma to_numeric_dtype (s : Series) : s_dtype (to_numeric parse_numeric s) ≠ Object.
Proof.
  destruct s as [l|l|l|l]; simpl; try done.
  by destruct (mapM as_int (coerce_entry parse_numeric <$> l)).
Qed.

Lemma to_numeric_len (s : Series) : s_len (to_numeric parse_numeric s) = s_len s.
Proof.
  destruct s as [l|l|l|l]; simpl; try done.
  destruct (mapM as_int (coerce_entry parse_numeric <$> l)) as [zs|] eqn:Hm; simpl.
  - apply length_mapM in Hm. by rewrite <- Hm, length_fmap.
  - by rewrite !length_fmap.
Qed.

Lemma to_numeric_idempotent (s : Series) :
  to_numeric parse_numeric (to_numeric parse_numeric s) = to_numeric parse_numeric s.
Proof.
  destruct s as [l|l|l|l]; simpl; try done.
  by destruct (mapM as_int (coerce_entry parse_numeric <$> l)).
Qed.

(** [_get_basic_statistics] on a table with distinct column names,
    spelled out. *)
Lemma basic_statistics_unfold (table : DataFrame) :
  NoDup (column_names table) →
  let cols' := (fun c => (c.1, to_numeric parse_numeric c.2)) <$> columns table in
  let numeric :=
    list_set (select_number table ++
              (filter (fun c => isna_all (to_numeric parse_numeric c.2) = false)
                      (columns table)).*1) in
  _get_basic_statistics parse_numeric describe table
  = (mkStats (n_rows table) (length (columns table)) numeric
       (match numeric with
        | [] => ∅
        | _ => describe_frame describe (mkFrame (n_rows table) cols') numeric
        end),
     mkFrame (n_rows table) cols').
Proof.
  intros Hnd cols' numeric. unfold _get_basic_statistics, column_names.
  destruct table as [n cols]. simpl in *.
  pose proof (coerce_fold parse_numeric n [] cols (select_number (mkFrame n cols)) Hnd) as Hf.
  simpl in Hf. rewrite Hf. cbn [n_rows columns].
  subst cols' numeric. by rewrite length_fmap.
Qed.

(** The coercion keeps the shape of the table: the same column names in
    the same order, the same number of rows in every column, and the
    counts reported are those of the table as loaded. *)
Theorem basic_statistics_keeps_shape (table : DataFrame) :
  aligned table →
  aligned (_get_basic_statistics parse_numeric describe table).2 ∧
  column_names (_get_basic_statistics parse_numeric describe table).2 = column_names table ∧
  n_rows (_get_basic_statistics parse_numeric describe table).2 = n_rows table ∧
  total_rows (_get_basic_statistics parse_numeric describe table).1 = n_rows table ∧
  total_columns (_get_basic_statistics parse_numeric describe table).1
    = length (columns table).
Proof.
  intros [Hnd Hlen]. rewrite (basic_statistics_unfold table Hnd). cbn [fst snd].
  unfold aligned, column_names. cbn [n_rows columns total_rows total_columns].
  rewrite coerced_names. repeat split; try done.
  apply Forall_fmap. eapply Forall_impl; [exact Hlen|].
  intros [c s] Hs. simpl in *. by rewrite to_numeric_len.
Qed.

(** Running the coercion a second time changes nothing more. *)
Theorem basic_statistics_idempotent (table : DataFrame) :
  NoDup (column_names table) →
  (_get_basic_statistics parse_numeric describe
     (_get_basic_statistics parse_numeric describe table).2).2
  = (_get_basic_statistics parse_numeric describe table).2.
Proof.
  intros Hnd. rewrite (basic_statistics_frame parse_numeric describe table Hnd).
  rewrite basic_statistics_frame.
  - cbn [n_rows columns]. f_equal. rewrite <- list_fmap_compose.
    apply list_fmap_ext. intros i [c s] _. simpl. by rewrite to_numeric_idempotent.
  - unfold column_names. cbn [columns]. by rewrite coerced_names.
Qed.

(** After the coercion every column of the table has a label in the
    column-type section, and no label is "object". *)
Theorem column_types_after_coercion (table : DataFrame) (col : string) :
  NoDup (column_names table) →
  (is_Some (_get_column_types (_get_basic_statistics parse_numeric describe table).2 !! col)
   ↔ col ∈ column_names table) ∧
  ∀ label,
    _get_column_types (_get_basic_statistics parse_numeric describe table).2 !! col
      = Some label →
    label ≠ "object".
Proof.
  intros Hnd. rewrite (basic_statistics_frame parse_numeric describe table Hnd).
  unfold _get_column_types. cbn [columns].
  rewrite (lookup_mapped_columns (fun s => dtype_str (s_dtype s))), lookup_col_fmap.
  split.
  - unfold column_names. rewrite !fmap_is_Some. split.
    + intros [s Hs]. apply lookup_col_elem_of in Hs.
      apply list_elem_of_fmap. by exists (col, s).
    + intros Hin. apply list_elem_of_fmap in Hin as ([c s] & -> & Hin).
      exists s. by apply lookup_col_Some_iff.
  - intros label Hl. destruct (lookup_col col (columns table)) as [s|]; [|done].
    simpl in Hl. injection Hl as <-.
    pose proof (to_numeric_dtype s) as Hd.
    by destruct (s_dtype (to_numeric parse_numeric s)).
Qed.

Lemma numeric_columns_spec (table : DataFrame) (col : string) :
  NoDup (column_names table) →
  NoDup (numeric_columns (_get_basic_statistics parse_numeric describe table).1) ∧
  (col ∈ numeric_columns (_get_basic_statistics parse_numeric describe table).1 ↔
   ∃ s, getitem table col = Some s ∧
        (is_number (s_dtype s) = true ∨ isna_all (to_numeric parse_numeric s) = false)).
Proof.
  intros Hnd. rewrite (basic_statistics_unfold table Hnd). cbn [fst numeric_columns].
  unfold list_set.
  match goal with |- NoDup (dict_fromkeys ?l) ∧ _ =>
    destruct (dict_fromkeys_spec l) as [H1 H2] end.
  split; [exact H1|]. rewrite H2, elem_of_app. unfold select_number, getitem.
  rewrite !list_elem_of_fmap. split.
  - intros [([c s] & -> & Hin)|([c s] & -> & Hin)];
      apply list_elem_of_filter in Hin as [Hp Hin]; simpl in *;
      exists s; (split; [by apply lookup_col_Some_iff | auto]).
  - intros (s & Hs & [Hp|Hp]); apply lookup_col_Some_iff in Hs; try done;
      [left | right]; exists (col, s); (split; [done|]);
      apply list_elem_of_filter; by split.
Qed.

(** The numeric column names reported hold no name twice, and a column
    is among them exactly when it was loaded with a number dtype or at
    least one of its entries survives the coercion. *)
Theorem numeric_columns_characterised (table : DataFrame) (col : string) :
  NoDup (column_names table) →
  NoDup (numeric_columns (_get_basic_statistics parse_numeric describe table).1) ∧
  (col ∈ numeric_columns (_get_basic_statistics parse_numeric describe table).1 ↔
   ∃ s, getitem table col = Some s ∧
        (is_number (s_dtype s) = true ∨ isna_all (to_numeric parse_numeric s) = false)).
Proof. exact (numeric_columns_spec table col). Qed.

Lemma to_numeric_is_number (s : Series) :
  is_number (s_dtype (to_numeric parse_numeric s)) = true ↔ s_dtype s ≠ Bool.
Proof.
  destruct s as [l|l|l|l]; simpl; try done.
  by destruct (mapM as_int (coerce_entry parse_numeric <$> l)).
Qed.

(** The summary has an entry for a reported numeric column name exactly
    when the column was not loaded as [bool], or every reported column
    was: [describe] leaves the bool columns out as soon as the selection
    holds a column of a number dtype. *)
Theorem summary_keys_are_numeric_columns (table : DataFrame) (col : string) :
  NoDup (column_names table) →
  is_Some (summary (_get_basic_statistics parse_numeric describe table).1 !! col)
  ↔ col ∈ numeric_columns (_get_basic_statistics parse_numeric describe table).1 ∧
    ∃ s, getitem table col = Some s ∧
         (s_dtype s ≠ Bool ∨
          ∀ c s', c ∈ numeric_columns (_get_basic_statistics parse_numeric describe table).1 →
                  getitem table c = Some s' → s_dtype s' = Bool).
Proof.
  intros Hnd.
  rewrite (basic_statistics_unfold table Hnd). cbn [fst numeric_columns summary].
  set (numeric := list_set _).
  set (table1 := mkFrame (n_rows table) _).
  assert (Hget1 : ∀ c, getitem table1 c = to_numeric parse_numeric <$> getitem table c).
  { intros c. unfold getitem, table1. cbn [columns]. apply lookup_col_fmap. }
  assert (Hkeys : ∀ L : list (string * Series),
            is_Some ((list_to_map ((fun c => (c.1, describe (float_values c.2))) <$> L)
                      : gmap string (gmap string float)) !! col)
            ↔ ∃ s, (col, s) ∈ L).
  { intros L. rewrite <- not_eq_None_Some, <- not_elem_of_list_to_map.
    rewrite <- list_fmap_compose. split.
    - intros Hin. apply dec_stable in Hin.
      apply list_elem_of_fmap in Hin as ([c s] & Heq & Hin). simpl in Heq. subst c. eauto.
    - intros [s Hs] Hnot. apply Hnot. apply list_elem_of_fmap. by exists (col, s). }
  assert (Hmain : is_Some (describe_frame describe table1 numeric !! col)
                  ↔ col ∈ numeric ∧
                    ∃ s, getitem table col = Some s ∧
                         (s_dtype s ≠ Bool ∨
                          ∀ c s', c ∈ numeric → getitem table c = Some s' →
                                  s_dtype s' = Bool)).
  { unfold describe_frame. cbv zeta.
    set (selected := omap (fun c => (fun s => (c, s)) <$> getitem table1 c) numeric).
    assert (Hsel : ∀ k s1, (k, s1) ∈ selected ↔ k ∈ numeric ∧ getitem table1 k = Some s1).
    { intros k s1. unfold selected. rewrite list_elem_of_omap. split.
      - intros (c & Hc & Heq). destruct (getitem table1 c) as [s0|] eqn:Hs0; [|done].
        simpl in Heq. injection Heq as -> ->. done.
      - intros [Hk Hs1]. exists k. split; [done|]. by rewrite Hs1. }
    destruct (filter (fun c => is_number (s_dtype c.2) = true) selected)
      as [|p rest] eqn:Hnum; rewrite Hkeys.
    - split.
      + intros [s1 Hs1]. apply Hsel in Hs1 as [Hin Hl]. rewrite Hget1 in Hl.
        destruct (getitem table col) as [s|] eqn:Hs; [|done].
        split; [done|]. exists s. split; [done|]. right.
        intros c s' Hc Hs'. destruct (decide (s_dtype s' = Bool)) as [|Hne]; [done|].
        exfalso.
        assert (Hp : (c, to_numeric parse_numeric s')
                     ∈ filter (fun c => is_number (s_dtype c.2) = true) selected).
        { apply list_elem_of_filter. split; [by apply to_numeric_is_number|].
          apply Hsel. split; [done|]. by rewrite Hget1, Hs'. }
        rewrite Hnum in Hp. by apply elem_of_nil in Hp.
      + intros (Hin & s & Hs & _). exists (to_numeric parse_numeric s).
        apply Hsel. split; [done|]. by rewrite Hget1, Hs.
    - rewrite <- Hnum. split.
      + intros [s1 Hs1]. apply list_elem_of_filter in Hs1 as [Hp Hs1].
        apply Hsel in Hs1 as [Hin Hl]. rewrite Hget1 in Hl.
        destruct (getitem table col) as [s|] eqn:Hs; [|done].
        simpl in Hl. injection Hl as <-. simpl in Hp.
        split; [done|]. exists s. split; [done|]. left. by apply to_numeric_is_number.
      + intros (Hin & s & Hs & [Hd|Hall]).
        * exists (to_numeric parse_numeric s). apply list_elem_of_filter.
          split; [by apply to_numeric_is_number|].
          apply Hsel. split; [done|]. by rewrite Hget1, Hs.
        * exfalso.
          assert (Hp : p ∈ filter (fun c => is_number (s_dtype c.2) = true) selected)
            by (rewrite Hnum; left).
          destruct p as [c0 s0]. apply list_elem_of_filter in Hp as [Hp0 Hs0].
          apply Hsel in Hs0 as [Hc0 Hl0]. rewrite Hget1 in Hl0.
          destruct (getitem table c0) as [s0'|] eqn:Hs0'; [|done].
          simpl in Hl0. injection Hl0 as <-. simpl in Hp0.
          apply to_numeric_is_number in Hp0. apply Hp0. by apply (Hall c0). }
  destruct numeric as [|c0 rest] eqn:Hn; [|exact Hmain].
  rewrite lookup_empty. split; [by intros [? ?] | by intros [?%elem_of_nil _]].
Qed.

End CoercionShape.

Lemma basic_statistics_keeps_shape_witness :
  aligned spread ∧
  aligned (_get_basic_statistics parse_decimal describe_unreached spread).2 ∧
  total_rows (_get_basic_statistics parse_decimal describe_unreached spread).1 = 5%nat.
Proof.
  assert (Ha : aligned spread).
  { split; [apply (bool_decide_unpack _); by vm_compute | repeat constructor]. }
  destruct (basic_statistics_keeps_shape parse_decimal describe_unreached spread Ha)
    as (H1 & _ & _ & H4 & _).
  split; [exact Ha|]. split; [exact H1 | exact H4].
Defined.

Lemma basic_statistics_idempotent_witness :
  NoDup (column_names spread) ∧
  (_get_basic_statistics parse_decimal describe_unreached
     (_get_basic_statistics parse_decimal describe_unreached spread).2).2
  = (_get_basic_statistics parse_decimal describe_unreached spread).2.
Proof.
  assert (Hnd : NoDup (column_names spread))
    by (apply (bool_decide_unpack _); by vm_compute).
  split; [exact Hnd|].
  exact (basic_statistics_idempotent parse_decimal describe_unreached spread Hnd).
Defined.

Lemma column_types_after_coercion_witness :
  NoDup (column_names spread) ∧
  _get_column_types (_get_basic_statistics parse_decimal describe_unreached spread).2 !! "t"
    = Some "float64" ∧
  "float64" ≠ "object".
Proof.
  assert (Hnd : NoDup (column_names spread))
    by (apply (bool_decide_unpack _); by vm_compute).
  split; [exact Hnd|]. split; [reflexivity|].
  destruct (column_types_after_coercion parse_decimal describe_unreached spread "t" Hnd)
    as [_ H].
  exact (H "float64" eq_refl).
Defined.

Lemma numeric_columns_characterised_witness :
  NoDup (column_names two_text) ∧
  ¬ "a" ∈ numeric_columns (_get_basic_statistics parse_decimal describe_unreached two_text).1.
Proof.
  assert (Hnd : NoDup (column_names two_text))
    by (apply (bool_decide_unpack _); by vm_compute).
  split; [exact Hnd|].
  destruct (numeric_columns_characterised parse_decimal describe_unreached two_text "a" Hnd)
    as [_ H].
  intros Hin. apply H in Hin as (s & Hs & [Hp|Hp]);
    vm_compute in Hs; injection Hs as <-; vm_compute in Hp; discriminate.
Defined.

Lemma summary_keys_are_numeric_columns_witness :
  NoDup (column_names number_and_flag) ∧
  "b" ∈ numeric_columns
          (_get_basic_statistics parse_decimal describe_unreached number_and_flag).1 ∧
  is_Some (summary (_get_basic_statistics parse_decimal describe_unreached
                      number_and_flag).1 !! "n") ∧
  ¬ is_Some (summary (_get_basic_statistics parse_decimal describe_unreached
                        number_and_flag).1 !! "b").
Proof.
  assert (Hnd : NoDup (column_names number_and_flag))
    by (apply (bool_decide_unpack _); by vm_compute).
  split; [exact Hnd|].
  assert (Hb : "b" ∈ numeric_columns
                 (_get_basic_statistics parse_decimal describe_unreached number_and_flag).1)
    by (apply (bool_decide_unpack _); by vm_compute).
  assert (Hn : "n" ∈ numeric_columns
                 (_get_basic_statistics parse_decimal describe_unreached number_and_flag).1)
    by (apply (bool_decide_unpack _); by vm_compute).
  split; [exact Hb|]. split.
  - apply (summary_keys_are_numeric_columns parse_decimal describe_unreached
             number_and_flag "n" Hnd).
    split; [exact Hn|]. exists (IntSeries [1; 2]). split; [reflexivity|]. by left.
  - intros Hsome.
    apply (summary_keys_are_numeric_columns parse_decimal describe_unreached
             number_and_flag "b" Hnd) in Hsome as (_ & s & Hs & [Hd|Hall]).
    + vm_compute in Hs. injection Hs as <-. by apply Hd.
    + specialize (Hall "n" (IntSeries [1; 2]) Hn eq_refl). discriminate.
Defined.

(** ** Missing values, bounds *)

Lemma of_nat_le (k n : nat) : (k <= n)%nat → (of_nat k <= of_nat n)%Q.
Proof. intros H. unfold of_nat. rewrite <- Zle_Qle. lia. Qed.

Lemma percent_bounds (k n : nat) :
  (0 < k)%nat → (k <= n)%nat →
  (0 < of_nat k / of_nat n * 100 ∧ of_nat k / of_nat n * 100 <= 100)%Q.
Proof.
  intros Hk Hkn.
  assert (Hn : (0 < of_nat n)%Q) by (apply of_nat_pos; lia).
  assert (Hk' : (0 < of_nat k)%Q) by (by apply of_nat_pos).
  split.
  - apply Qmult_lt_0_compat; [|done]. apply Qlt_shift_div_l; [done|].
    by rewrite Qmult_0_l.
  - apply Qle_trans with (1 * 100)%Q; [|rewrite Qmult_1_l; apply Qle_refl].
    apply Qmult_le_compat_r; [|done].
    apply Qle_shift_div_r; [done|]. rewrite Qmult_1_l. by apply of_nat_le.
Qed.

Lemma missing_values_entry (table : DataFrame) (col : string) (v : float) :
  _analyze_missing_values table !! col = Some v →
  ∃ s, getitem table col = Some s ∧ (0 < n_rows table)%nat ∧
       v = Fin (of_nat (null_count s) / of_nat (n_rows table) * 100) ∧
       (0 < of_nat (null_count s) / of_nat (n_rows table) * 100)%Q.
Proof.
  unfold _analyze_missing_values. intros Hv.
  apply map_lookup_filter_Some in Hv as [Hv Hpos]. simpl in Hpos.
  unfold missing_percentages in Hv.
  rewrite (lookup_mapped_columns
             (fun s => fmul (div_len (null_count s) (n_rows table)) (Fin 100))) in Hv.
  fold (getitem table col) in Hv.
  destruct (getitem table col) as [s|]; simpl in Hv; [|done].
  injection Hv as <-. exists s. split; [done|].
  unfold div_len in *. destruct (n_rows table) as [|n]; simpl in Hpos; [done|].
  simpl fmul in *. unfold fgt in Hpos. apply flt_spec in Hpos.
  split; [lia|]. split; done.
Qed.

(** In a table as [read_csv] builds it, every entry of the
    missing-values section is a number greater than 0 and at most 100,
    never NaN. *)
Theorem missing_values_bounds (table : DataFrame) (col : string) (v : float) :
  aligned table →
  _analyze_missing_values table !! col = Some v →
  ∃ q, v = Fin q ∧ (0 < q ∧ q <= 100)%Q.
Proof.
  intros [_ Hlen] Hv.
  destruct (missing_values_entry table col v Hv) as (s & Hs & Hn & -> & Hpos).
  eexists. split; [reflexivity|].
  assert (Hle : (null_count s <= n_rows table)%nat).
  { apply lookup_col_elem_of in Hs. rewrite Forall_forall in Hlen.
    specialize (Hlen _ Hs). simpl in Hlen. rewrite <- Hlen. apply null_count_le. }
  apply percent_bounds; [|done].
  destruct (null_count s) as [|k]; [|lia].
  exfalso. revert Hpos. destruct (n_rows table); [lia|].
  unfold of_nat, Qlt, Qdiv, Qmult, Qinv. simpl. lia.
Qed.

Lemma missing_values_bounds_witness :
  aligned spread ∧
  ∃ q, _analyze_missing_values spread !! "w" = Some (Fin q) ∧ (0 < q ∧ q <= 100)%Q.
Proof.
  assert (Ha : aligned spread).
  { split; [apply (bool_decide_unpack _); by vm_compute | repeat constructor]. }
  split; [exact Ha|].
  destruct (missing_values_bounds spread "w" (Fin (of_nat 1 / of_nat 5 * 100)) Ha)
    as (q & Hq & Hb).
  - reflexivity.
  - exists q. rewrite <- Hq. split; [reflexivity | exact Hb].
Defined.

(** ** Outliers, bounds *)

Lemma float_values_length (s : Series) : length (float_values s) = s_len s.
Proof. destruct s as [l|l|l|l]; simpl; try done; by rewrite length_fmap. Qed.

Lemma flagged_nan (lower upper : float) : flagged lower upper NaN = false.
Proof. unfold flagged, fgt. by destruct lower, upper. Qed.

Section OutlierBounds.

Variable quantile : list float -> Q -> exn + float.

(** A column that holds nulls only, as a text column does after the
    coercion, never gets an entry in the outlier report, whatever its
    quantiles are reported to be. *)
Theorem all_null_column_never_outlier (table : DataFrame) (w : world)
    (outliers : gmap string outlier_report) (w' : world) (col : string) (s : Series) :
  _detect_outliers quantile table w = (inr outliers, w') →
  getitem table col = Some s →
  Forall (fun x => x = NaN) (float_values s) →
  outliers !! col = None.
Proof.
  intros Hrun Hs Hnan. unfold _detect_outliers in Hrun.
  destruct (detect_loop_returns quantile table (select_number table) ∅ w)
    as (out & Hout & Hlook).
  rewrite Hout in Hrun. injection Hrun as <- _. rewrite Hlook.
  assert (Hnone : ∀ lower upper,
            filter (fun x => flagged lower upper x = true) (float_values s) = []).
  { intros lower upper. induction Hnan as [|x l Hx _ IH]; [done|].
    rewrite filter_cons, Hx, flagged_nan. by rewrite decide_False. }
  unfold column_outliers. rewrite Hs.
  destruct (quantile (float_values s) (1 # 4)) as [|Q1]; [apply lookup_empty|].
  destruct (quantile (float_values s) (3 # 4)) as [|Q3]; [apply lookup_empty|].
  cbv zeta. rewrite Hnone. apply lookup_empty.
Qed.

(** In a table as [read_csv] builds it, an entry of the outlier report
    counts at least one and at most all rows, and its percentage is a
    number greater than 0 and at most 100. *)
Theorem outlier_report_count_bounds (table : DataFrame) (w : world)
    (outliers : gmap string outlier_report) (w' : world) (col : string)
    (r : outlier_report) :
  aligned table →
  _detect_outliers quantile table w = (inr outliers, w') →
  outliers !! col = Some r →
  (1 <= total_outliers r <= n_rows table)%nat ∧
  ∃ q, percentage r = Fin q ∧ (0 < q ∧ q <= 100)%Q.
Proof.
  intros [_ Hlen] Hrun Hr. unfold _detect_outliers in Hrun.
  destruct (detect_loop_returns quantile table (select_number table) ∅ w)
    as (out & Hout & Hlook).
  rewrite Hout in Hrun. injection Hrun as <- _. rewrite Hlook in Hr.
  destruct (column_outliers quantile table col) as [|[r'|]] eqn:Hc;
    try (by rewrite lookup_empty in Hr).
  destruct (decide (col ∈ select_number table)); [|by rewrite lookup_empty in Hr].
  injection Hr as ->.
  destruct (column_outliers_entry quantile table col r Hc)
    as (s & q1 & q3 & Hs & _ & _ & _ & _ & Hk & Hpos & Hn & Hp).
  assert (Hle : (total_outliers r <= n_rows table)%nat).
  { rewrite Hk. etransitivity; [apply length_filter|].
    rewrite float_values_length.
    apply lookup_col_elem_of in Hs. rewrite Forall_forall in Hlen.
    specialize (Hlen _ Hs). simpl in Hlen. by rewrite Hlen. }
  split; [lia|]. eexists. split; [exact Hp|]. by apply percent_bounds.
Qed.

End OutlierBounds.

Lemma all_null_column_never_outlier_witness :
  ∃ outliers w',
    _detect_outliers linear_quantile
      (_get_basic_statistics parse_decimal describe_unreached two_text).2 initial_world
    = (inr outliers, w') ∧
    outliers !! "a" = None.
Proof.
  eexists _, _. split; [vm_compute; reflexivity|].
  eapply (all_null_column_never_outlier linear_quantile
            (_get_basic_statistics parse_decimal describe_unreached two_text).2
            initial_world _ _ "a" (FloatSeries [NaN; NaN])).
  - vm_compute. reflexivity.
  - reflexivity.
  - repeat constructor.
Defined.

Lemma outlier_report_count_bounds_witness :
  aligned spread ∧
  ∃ outliers w' r,
    _detect_outliers linear_quantile spread initial_world = (inr outliers, w') ∧
    outliers !! "v" = Some r ∧
    (1 <= total_outliers r <= 5)%nat.
Proof.
  assert (Ha : aligned spread).
  { split; [apply (bool_decide_unpack _); by vm_compute | repeat constructor]. }
  split; [exact Ha|].
  eexists _, _, _. split; [vm_compute; reflexivity|].
  split; [vm_compute; reflexivity|].
  match goal with
  | |- (1 <= total_outliers ?r <= _)%nat =>
      destruct (outlier_report_count_bounds linear_quantile spread initial_world
                  _ _ "v" r Ha ltac:(vm_compute; reflexivity)
                  ltac:(vm_compute; reflexivity)) as [H _]
  end.
  exact H.
Defined.

(** ** Correlations *)

Lemma filter_names_NoDup (P : string * Series → Prop) `{!∀ c, Decision (P c)}
    (cols : list (string * Series)) :
  NoDup cols.*1 → NoDup (filter P cols).*1.
Proof.
  induction cols as [|[c s] t IH]; intros Hnd; [apply NoDup_nil_2|].
  rewrite fmap_cons in Hnd. apply NoDup_cons in Hnd as [Hc Ht].
  rewrite filter_cons. destruct (decide (P (c, s))); [|by apply IH].
  rewrite fmap_cons. apply NoDup_cons. split; [|by apply IH].
  intros Hin. apply Hc. apply list_elem_of_fmap in Hin as (entry & -> & Hentry).
  apply list_elem_of_filter in Hentry as [_ Hentry].
  apply list_elem_of_fmap. by exists entry.
Qed.

Lemma omap_lookup_sub {B} (g : Series → B) (cols l : list (string * Series)) :
  NoDup cols.*1 →
  (∀ p, p ∈ l → p ∈ cols) →
  omap (fun c => (fun s => (c, g s)) <$> lookup_col c cols) (l.*1)
  = (fun p => (p.1, g p.2)) <$> l.
Proof.
  intros Hnd. induction l as [|[c s] t IH]; intros Hsub; [done|].
  rewrite !fmap_cons. cbn [omap list_omap fst snd].
  assert (Hc : lookup_col c cols = Some s).
  { apply lookup_col_Some_iff; [done|]. apply Hsub. left. }
  rewrite Hc. cbn. f_equal. apply IH. intros p Hp. apply Hsub. by right.
Qed.

Lemma filter_fmap_length {A B} (f : A → B) (P : B → Prop) `{!∀ b, Decision (P b)}
    (l : list A) :
  length (filter P (f <$> l)) = length (filter (fun a => P (f a)) l).
Proof.
  induction l as [|a t IH]; [done|].
  rewrite fmap_cons, !filter_cons. destruct (decide (P (f a))); simpl; by rewrite IH.
Qed.

Section CorrelationMatrix.

Variable pearson : list float -> list float -> float.

(** The columns that enter the matrix, with their values. *)
Lemma number_data (table : DataFrame) :
  NoDup (column_names table) →
  omap (fun c => (fun s => (c, float_values s)) <$> getitem table c) (select_number table)
  = (fun c => (c.1, float_values c.2))
      <$> filter (fun c => is_number (s_dtype c.2) = true) (columns table).
Proof.
  intros Hnd. unfold select_number, getitem.
  apply (omap_lookup_sub float_values); [done|].
  intros p Hp. by apply list_elem_of_filter in Hp as [_ ?].
Qed.

(** With at least two columns of a number dtype, the correlation section
    is a square matrix over exactly those columns: it has a row for each,
    every row has an entry for each, and the entry of row [a] at [b] is
    the coefficient of the values of [b] and [a]. *)
Theorem correlation_matrix_entries (table : DataFrame) :
  NoDup (column_names table) →
  (1 < length (select_number table))%nat →
  (∀ a, is_Some (_compute_correlations pearson table !! a) ↔ a ∈ select_number table) ∧
  (∀ a row, _compute_correlations pearson table !! a = Some row →
     ∀ b, is_Some (row !! b) ↔ b ∈ select_number table) ∧
  (∀ a b sa sb,
     getitem table a = Some sa → is_number (s_dtype sa) = true →
     getitem table b = Some sb → is_number (s_dtype sb) = true →
     ∃ row, _compute_correlations pearson table !! a = Some row ∧
            row !! b = Some (pearson (float_values sb) (float_values sa))).
Proof.
  intros Hnd Hlen. unfold _compute_correlations. rewrite decide_True by done.
  unfold corr_frame. rewrite (number_data table Hnd).
  set (F := filter (fun c => is_number (s_dtype c.2) = true) (columns table)).
  set (data := (fun c => (c.1, float_values c.2)) <$> F).
  assert (Hkeys : data.*1 = select_number table).
  { unfold data, select_number. fold F. by rewrite <- !list_fmap_compose. }
  assert (HndF : NoDup data.*1).
  { rewrite Hkeys. unfold select_number. by apply filter_names_NoDup. }
  set (row_of := fun va : list float =>
         (list_to_map ((fun b => (b.1, pearson b.2 va)) <$> data) : gmap string float)).
  assert (Hrows : ((fun a => (a.1, row_of a.2)) <$> data).*1 = data.*1).
  { by rewrite <- !list_fmap_compose. }
  assert (Hcols : ∀ va, ((fun b => (b.1, pearson b.2 va)) <$> data).*1 = data.*1).
  { intros va. by rewrite <- !list_fmap_compose. }
  assert (Hrowkeys : ∀ va b, is_Some (row_of va !! b) ↔ b ∈ select_number table).
  { intros va b. unfold row_of.
    rewrite <- not_eq_None_Some, <- not_elem_of_list_to_map, Hcols, Hkeys.
    split; [apply dec_stable | tauto]. }
  split; [|split].
  - intros a. change (is_Some ((list_to_map ((fun a => (a.1, row_of a.2)) <$> data)
                                : gmap string (gmap string float)) !! a)
                      ↔ a ∈ select_number table).
    rewrite <- not_eq_None_Some, <- not_elem_of_list_to_map, Hrows, Hkeys.
    split; [apply dec_stable | tauto].
  - intros a row Hrow.
    change ((list_to_map ((fun a => (a.1, row_of a.2)) <$> data)
             : gmap string (gmap string float)) !! a = Some row) in Hrow.
    apply elem_of_list_to_map_2 in Hrow.
    apply list_elem_of_fmap in Hrow as ([a' va] & [= -> ->] & _).
    apply Hrowkeys.
  - intros a b sa sb Ha Hpa Hb Hpb.
    assert (Hin : ∀ c s, getitem table c = Some s → is_number (s_dtype s) = true →
                         (c, float_values s) ∈ data).
    { intros c s Hc Hp. unfold data. apply list_elem_of_fmap. exists (c, s).
      split; [done|]. apply list_elem_of_filter. split; [done|].
      by apply lookup_col_elem_of. }
    exists (row_of (float_values sa)). split.
    + change ((list_to_map ((fun a => (a.1, row_of a.2)) <$> data)
               : gmap string (gmap string float)) !! a = Some (row_of (float_values sa))).
      apply elem_of_list_to_map_1; [by rewrite Hrows|].
      apply list_elem_of_fmap. exists (a, float_values sa). split; [done|]. by apply Hin.
    + unfold row_of. apply elem_of_list_to_map_1; [by rewrite Hcols|].
      apply list_elem_of_fmap. exists (b, float_values sb). split; [done|]. by apply Hin.
Qed.

End CorrelationMatrix.

Section Correlations.

Variable parse_numeric : string -> option number.
Variable quantile : list float -> Q -> exn + float.
Variable pearson : list float -> list float -> float.
Variable describe : list float -> gmap string float.

Lemma coerced_is_number (s : Series) :
  is_number (s_dtype (to_numeric parse_numeric s)) = true ↔ s_dtype s ≠ Bool.
Proof.
  destruct s as [l|l|l|l]; simpl; try done.
  by destruct (mapM as_int (coerce_entry parse_numeric <$> l)).
Qed.

(** In the analysis of a loaded table the correlation section is empty
    exactly when fewer than two columns have a dtype other than [bool]:
    the coercion has given every other column a number dtype. *)
Theorem analysis_correlations_empty_iff (table : DataFrame) (w : world)
    (a : analysis) (table' : DataFrame) (w' : world) :
  NoDup (column_names table) →
  analyze_dataset parse_numeric quantile pearson describe table w = (inr (a, table'), w') →
  a_correlations a = ∅ ↔
  (length (filter (fun c => s_dtype c.2 ≠ Bool) (columns table)) < 2)%nat.
Proof.
  intros Hnd Hrun.
  destruct (analyze_dataset_returns parse_numeric quantile pearson describe table w)
    as (a0 & w0 & Hrun0 & _ & _ & Hcorr & _).
  rewrite Hrun0 in Hrun. injection Hrun as <- _ _. rewrite Hcorr.
  rewrite (basic_statistics_frame parse_numeric describe table Hnd).
  set (table1 := mkFrame _ _).
  assert (Hnd1 : NoDup (column_names table1)).
  { unfold column_names, table1. cbn [columns]. by rewrite coerced_names. }
  assert (Hlen : length (select_number table1)
                 = length (filter (fun c => s_dtype c.2 ≠ Bool) (columns table))).
  { unfold select_number, table1. cbn [columns].
    rewrite length_fmap.
    rewrite (filter_fmap_length (fun c => (c.1, to_numeric parse_numeric c.2))
               (fun c => is_number (s_dtype c.2) = true)).
    f_equal. apply filter_iff_on. intros [c s] _. simpl. apply coerced_is_number. }
  rewrite <- Hlen. unfold _compute_correlations.
  destruct (decide (1 < length (select_number table1))%nat) as [Hmany|Hfew].
  - split; [|lia]. intros Hempty. exfalso.
    unfold corr_frame in Hempty. rewrite (number_data table1 Hnd1) in Hempty.
    unfold select_number in Hmany. rewrite length_fmap in Hmany.
    destruct (filter (fun c => is_number (s_dtype c.2) = true) (columns table1))
      as [|p rest]; [simpl in Hmany; lia|].
    rewrite !fmap_cons in Hempty. cbn [list_to_map foldr] in Hempty.
    by apply insert_non_empty in Hempty.
  - split; [lia | done].
Qed.

End Correlations.

Lemma correlation_matrix_entries_witness :
  NoDup (column_names spread) ∧
  (1 < length (select_number spread))%nat ∧
  ∃ row, _compute_correlations pearson_unreached spread !! "v" = Some row ∧
         is_Some (row !! "w").
Proof.
  assert (Hnd : NoDup (column_names spread))
    by (apply (bool_decide_unpack _); by vm_compute).
  split; [exact Hnd|]. split; [simpl; lia|].
  destruct (correlation_matrix_entries pearson_unreached spread Hnd ltac:(simpl; lia))
    as (_ & _ & H).
  destruct (H "v" "w" (IntSeries [1; 2; 3; 4; 100])
              (FloatSeries [Fin 1; NaN; Fin 2; Fin 3; Fin 2])
              eq_refl eq_refl eq_refl eq_refl) as (row & Hrow & Hentry).
  exists row. split; [exact Hrow|]. by rewrite Hentry.
Defined.

Lemma analysis_correlations_empty_iff_witness :
  NoDup (column_names one_text) ∧
  ∃ a table' w',
    analyze_dataset parse_decimal linear_quantile pearson_unreached describe_unreached
      one_text initial_world = (inr (a, table'), w') ∧
    a_correlations a = ∅.
Proof.
  assert (Hnd : NoDup (column_names one_text))
    by (apply (bool_decide_unpack _); by vm_compute).
  split; [exact Hnd|].
  eexists _, _, _. split; [vm_compute; reflexivity|].
  eapply (analysis_correlations_empty_iff parse_decimal linear_quantile pearson_unreached
            describe_unreached one_text initial_world _ _ _ Hnd).
  - vm_compute. reflexivity.
  - simpl. lia.
Defined.

(** ** Narration, attempt by attempt *)

Lemma wait_first_attempts (attempt : nat) :
  (1 <= attempt <= 3)%nat → wait_exponential 1 4 10 attempt = 4.
Proof.
  intros H. assert (Hc : attempt = 1%nat ∨ attempt = 2%nat ∨ attempt = 3%nat) by lia.
  by destruct Hc as [->|[->| ->]].
Qed.

Lemma lacks_text_response (status : Z) (b : body) :
  is_error_status status = false →
  b = NoContentPath ∨ b = NonStringContent →
  lacks_text (Response status b) = true.
Proof.
  unfold is_error_status, lacks_text. intros Hs Hb.
  apply andb_true_iff. split; [|by destruct Hb as [-> | ->]].
  apply orb_true_iff. apply andb_false_iff in Hs. lia.
Qed.



(** What the retry loop around the body of [generate_narrative] does,
    started at a given attempt with a given number of attempts left:
    [k] requests are sent, the first [k - 1] of them answered without a
    text, each retry is preceded by a sleep of 4, and whatever is
    written goes to the report file. *)
Lemma retry_narrative_effects (E : env) (self : DataAnalyzer) (a : analysis)
    (remaining attempt : nat) (w : world) res w' :
  (1 <= attempt)%nat → (attempt + remaining <= 3)%nat →
  retry_from (wait_exponential 1 4 10) (generate_narrative_body E self a)
             attempt remaining w = (res, w') →
  ∃ k writes, (1 <= k <= S remaining)%nat ∧
    http_calls w' = (http_calls w + k)%nat ∧
    sleeps w' = sleeps w ++ replicate (k - 1) 4 ∧
    dirs w' = dirs w ∧
    write_log w' = write_log w ++ writes ∧
    Forall (fun e => e.1 = readme_path (dataset_name self)) writes ∧
    (length writes <= k)%nat ∧
    (∀ p, p ≠ readme_path (dataset_name self) → files w' !! p = files w !! p) ∧
    (∀ i, (1 <= i < k)%nat → lacks_text (http_post E (http_calls w + i)) = true) ∧
    match res with
    | inr _ =>
        ∃ text,
          files w' !! readme_path (dataset_name self) = Some text ∧
          last writes = Some (readme_path (dataset_name self), text) ∧
          ((request_fails (http_post E (http_calls w + k)) = true ∧
            text = fallback_report (dataset_name self) (a_basic_stats a)) ∨
           (∃ st, http_post E (http_calls w + k) = Response st (Content text)
                  ∧ is_error_status st = false))
    | inl e =>
        e = RetryError ∧ k = S remaining ∧
        lacks_text (http_post E (http_calls w + k)) = true ∧
        (files w' !! readme_path (dataset_name self)
           = files w !! readme_path (dataset_name self) ∨
         files w' !! readme_path (dataset_name self) = Some EmptyString) ∧
        ((∀ i, (1 <= i <= k)%nat →
            ∃ st, http_post E (http_calls w + i) = Response st NoContentPath) →
         files w' = files w ∧ writes = []) ∧
        ((∃ i st, (1 <= i <= k)%nat ∧
            http_post E (http_calls w + i) = Response st NonStringContent) →
         files w' !! readme_path (dataset_name self) = Some EmptyString)
    end.
Proof.
  revert attempt w res w'.
  induction remaining as [|r IH]; intros attempt w res w' Ha Hb Hrun;
    cbn [retry_from] in Hrun;
    destruct (body_cases E self a w)
      as [Hf|[(st & Hp & Hs)|[(st & Hp & Hs)|(st & tx & Hp & Hs)]]].
  - (* last attempt, the request fails *)
    rewrite (body_request_fails _ _ _ _ Hf) in Hrun. injection Hrun as <- <-.
    exists 1%nat, [(readme_path (dataset_name self),
                    fallback_report (dataset_name self) (a_basic_stats a))].
    cbn. rewrite app_nil_r, Nat.add_1_r.
    split_and!; try done; try lia.
    + by constructor.
    + intros p Hp'. by rewrite lookup_insert_ne.
    + eexists. rewrite lookup_insert_eq. split_and!; try done. by left.
  - (* last attempt, no text *)
    rewrite (body_no_content_path _ _ _ _ _ Hp Hs) in Hrun. injection Hrun as <- <-.
    exists 1%nat, []. cbn. rewrite !app_nil_r, Nat.add_1_r.
    split_and!; try done; try lia.
    + rewrite Hp. apply lacks_text_response; auto.
    + by left.
    + intros (i & st' & Hi & Hst'). assert (i = 1%nat) as -> by lia.
      rewrite Nat.add_1_r in Hst'. congruence.
  - (* last attempt, a text that is no string *)
    rewrite (body_non_string _ _ _ _ _ Hp Hs) in Hrun. injection Hrun as <- <-.
    exists 1%nat, [(readme_path (dataset_name self), EmptyString)].
    cbn. rewrite app_nil_r, Nat.add_1_r.
    split_and!; try done; try lia.
    + by constructor.
    + intros p Hp'. by rewrite lookup_insert_ne.
    + rewrite Hp. apply lacks_text_response; auto.
    + right. by rewrite lookup_insert_eq.
    + intros Hall. destruct (Hall 1%nat ltac:(lia)) as [st' Hst'].
      rewrite Nat.add_1_r in Hst'. congruence.
    + intros _. by rewrite lookup_insert_eq.
  - (* last attempt, the text arrives *)
    rewrite (body_content _ _ _ _ _ _ Hp Hs) in Hrun. injection Hrun as <- <-.
    exists 1%nat, [(readme_path (dataset_name self), tx)].
    cbn. rewrite app_nil_r, Nat.add_1_r.
    split_and!; try done; try lia.
    + by constructor.
    + intros p Hp'. by rewrite lookup_insert_ne.
    + eexists. rewrite lookup_insert_eq. split_and!; try done. right. by exists st.
  - rewrite (body_request_fails _ _ _ _ Hf) in Hrun. injection Hrun as <- <-.
    exists 1%nat, [(readme_path (dataset_name self),
                    fallback_report (dataset_name self) (a_basic_stats a))].
    cbn. rewrite app_nil_r, Nat.add_1_r.
    split_and!; try done; try lia.
    + by constructor.
    + intros p Hp'. by rewrite lookup_insert_ne.
    + eexists. rewrite lookup_insert_eq. split_and!; try done. by left.
  - (* no text, another attempt follows *)
    rewrite (body_no_content_path _ _ _ _ _ Hp Hs) in Hrun.
    unfold bind, sleep in Hrun. cbn in Hrun.
    rewrite wait_first_attempts in Hrun by lia.
    apply IH in Hrun; [|lia|lia].
    destruct Hrun as (k & writes & Hk & Hcalls & Hsleeps & Hdirs & Hlog & Hall & Hlen
                      & Hfiles & Hfirst & Hres).
    cbn in Hcalls, Hsleeps, Hdirs, Hlog, Hfiles, Hfirst, Hres.
    assert (Hone : lacks_text (http_post E (http_calls w + 1)) = true).
    { rewrite Nat.add_1_r, Hp. apply lacks_text_response; auto. }
    exists (S k), writes.
    split_and!; try done; try lia.
    + rewrite Hsleeps, <- app_assoc. f_equal.
      destruct k as [|k]; [lia|]. cbn. by rewrite Nat.sub_0_r.
    + intros i Hi. destruct (decide (i = 1%nat)) as [->|Hne]; [done|].
      replace (http_calls w + i)%nat with (S (http_calls w + (i - 1))) by lia.
      apply Hfirst. lia.
    + replace (http_calls w + S k)%nat with (S (http_calls w + k)) by lia.
      destruct res as [e|u]; [|exact Hres].
      destruct Hres as (-> & -> & Hlast & Hreadme & Hnone & Hsome).
      split_and!; try done.
      * intros Hno. apply Hnone. intros i Hi.
        replace (S (http_calls w + i)) with (http_calls w + S i)%nat by lia.
        apply Hno. lia.
      * intros (i & st' & Hi & Hst'). apply Hsome.
        destruct (decide (i = 1%nat)) as [->|Hne].
        { rewrite Nat.add_1_r in Hst'. congruence. }
        exists (i - 1)%nat, st'. split; [lia|].
        by replace (S (http_calls w + (i - 1))) with (http_calls w + i)%nat by lia.
  - (* a text that is no string, another attempt follows *)
    rewrite (body_non_string _ _ _ _ _ Hp Hs) in Hrun.
    unfold bind, sleep in Hrun. cbn in Hrun.
    rewrite wait_first_attempts in Hrun by lia.
    apply IH in Hrun; [|lia|lia].
    destruct Hrun as (k & writes & Hk & Hcalls & Hsleeps & Hdirs & Hlog & Hall & Hlen
                      & Hfiles & Hfirst & Hres).
    cbn in Hcalls, Hsleeps, Hdirs, Hlog, Hfiles, Hfirst, Hres.
    assert (Hone : lacks_text (http_post E (http_calls w + 1)) = true).
    { rewrite Nat.add_1_r, Hp. apply lacks_text_response; auto. }
    exists (S k), ((readme_path (dataset_name self), EmptyString) :: writes).
    split_and!; try done; try (cbn; lia).
    + rewrite Hsleeps, <- app_assoc. f_equal.
      destruct k as [|k]; [lia|]. cbn. by rewrite Nat.sub_0_r.
    + by rewrite Hlog, <- app_assoc.
    + by constructor.
    + intros p Hp'. rewrite Hfiles by done. by rewrite lookup_insert_ne.
    + intros i Hi. destruct (decide (i = 1%nat)) as [->|Hne]; [done|].
      replace (http_calls w + i)%nat with (S (http_calls w + (i - 1))) by lia.
      apply Hfirst. lia.
    + replace (http_calls w + S k)%nat with (S (http_calls w + k)) by lia.
      destruct res as [e|u].
      * destruct Hres as (-> & -> & Hlast & Hreadme & Hnone & Hsome).
        assert (Hempty : files w' !! readme_path (dataset_name self) = Some EmptyString).
        { rewrite lookup_insert_eq in Hreadme. by destruct Hreadme. }
        split_and!; try done.
        -- by right.
        -- intros Hno. destruct (Hno 1%nat ltac:(lia)) as [st' Hst'].
           rewrite Nat.add_1_r in Hst'. congruence.
      * destruct Hres as (text & Hfile & Hlast & Hkind).
        exists text. split_and!; try done.
        destruct writes as [|e0 l]; [done|]. exact Hlast.
  - rewrite (body_content _ _ _ _ _ _ Hp Hs) in Hrun. injection Hrun as <- <-.
    exists 1%nat, [(readme_path (dataset_name self), tx)].
    cbn. rewrite app_nil_r, Nat.add_1_r.
    split_and!; try done; try lia.
    + by constructor.
    + intros p Hp'. by rewrite lookup_insert_ne.
    + eexists. rewrite lookup_insert_eq. split_and!; try done. right. by exists st.
Qed.


(** A first response that carries the text ends the call: one request,
    no sleep, and the text is the one thing written. *)
Theorem generate_narrative_first_success (E : env) (self : DataAnalyzer) (a : analysis)
    (w : world) (status : Z) (text : string) :
  http_post E (S (http_calls w)) = Response status (Content text) →
  is_error_status status = false →
  generate_narrative E self a w
  = (inr tt,
     World (stdout w) (<[readme_path (dataset_name self) := text]> (files w))
           (write_log w ++ [(readme_path (dataset_name self), text)])
           (dirs w) (S (http_calls w)) (sleeps w)).
Proof.
  intros Hp Hs. unfold generate_narrative, retry. cbn [Nat.sub retry_from].
  by rewrite (body_content _ _ _ _ _ _ Hp Hs).
Qed.

Lemma generate_narrative_first_success_witness :
  (generate_narrative (env_all_good spread) (sample_analyzer spread) sample_analysis
     initial_world).1 = inr tt ∧
  write_log (generate_narrative (env_all_good spread) (sample_analyzer spread)
               sample_analysis initial_world).2 = [("data/README.md", "story")].
Proof.
  rewrite (generate_narrative_first_success (env_all_good spread) (sample_analyzer spread)
             sample_analysis initial_world 200 "story" eq_refl eq_refl).
  split; reflexivity.
Defined.

(** The decorator does retry when the body raises something that is not
    a request failure: after a well-formed response without the text and
    a second response with it, two requests were sent, one sleep of 4 lies
    between them, and the text is written once. *)
Theorem generate_narrative_retries_after_key_error (E : env) (self : DataAnalyzer)
    (a : analysis) (w : world) (st1 st2 : Z) (text : string) :
  http_post E (S (http_calls w)) = Response st1 NoContentPath →
  is_error_status st1 = false →
  http_post E (S (S (http_calls w))) = Response st2 (Content text) →
  is_error_status st2 = false →
  generate_narrative E self a w
  = (inr tt,
     World (stdout w) (<[readme_path (dataset_name self) := text]> (files w))
           (write_log w ++ [(readme_path (dataset_name self), text)])
           (dirs w) (S (S (http_calls w))) (sleeps w ++ [4])).
Proof.
  intros Hp1 Hs1 Hp2 Hs2. unfold generate_narrative, retry. cbn [Nat.sub retry_from].
  rewrite (body_no_content_path _ _ _ _ _ Hp1 Hs1).
  unfold bind, sleep. cbn.
  set (w1 := World _ _ _ _ _ _).
  by rewrite (body_content E self a w1 st2 text Hp2 Hs2).
Qed.

Lemma generate_narrative_retries_after_key_error_witness :
  let run := generate_narrative (env_bad_then_good spread) (sample_analyzer spread)
               sample_analysis initial_world in
  run.1 = inr tt ∧ http_calls run.2 = 2%nat ∧ sleeps run.2 = [4] ∧
  write_log run.2 = [("data/README.md", "story")].
Proof.
  intros run. subst run.
  rewrite (generate_narrative_retries_after_key_error (env_bad_then_good spread)
             (sample_analyzer spread) sample_analysis initial_world 200 200 "story"
             eq_refl eq_refl eq_refl eq_refl).
  repeat split; reflexivity.
Defined.

(** Whatever the network answers, the decorated call sends between one
    and three requests and sleeps 4 before each retry and never
    otherwise.  It creates no directory.  Every file it opens for writing
    is the report file, at most once per request, and every other file
    is left as it was.  When it returns, the report file holds what was
    written last. *)
Theorem generate_narrative_effects (E : env) (self : DataAnalyzer) (a : analysis)
    (w : world) :
  ∃ k writes, (1 <= k <= 3)%nat ∧
    http_calls (generate_narrative E self a w).2 = (http_calls w + k)%nat ∧
    sleeps (generate_narrative E self a w).2 = sleeps w ++ replicate (k - 1) 4 ∧
    dirs (generate_narrative E self a w).2 = dirs w ∧
    write_log (generate_narrative E self a w).2 = write_log w ++ writes ∧
    Forall (fun e => e.1 = readme_path (dataset_name self)) writes ∧
    (length writes <= k)%nat ∧
    (∀ p, p ≠ readme_path (dataset_name self) →
          files (generate_narrative E self a w).2 !! p = files w !! p) ∧
    ((generate_narrative E self a w).1 = inr tt →
     ∃ text, last writes = Some (readme_path (dataset_name self), text) ∧
             files (generate_narrative E self a w).2 !! readme_path (dataset_name self)
             = Some text).
Proof.
  destruct (generate_narrative E self a w) as [res w'] eqn:Hrun.
  unfold generate_narrative, retry in Hrun.
  apply retry_narrative_effects in Hrun; [|lia|simpl; lia].
  destruct Hrun as (k & writes & Hk & Hcalls & Hsleeps & Hdirs & Hlog & Hall & Hlen
                    & Hfiles & _ & Hres).
  exists k, writes. cbn [fst snd]. split; [simpl in Hk; lia|].
  split_and!; try done.
  intros ->. destruct Hres as (text & Hfile & Hlast & _). by exists text.
Qed.



(** ** Visualization and the run as a whole *)

Lemma append_inj_l (a b c : string) : a +:+ b = a +:+ c → b = c.
Proof.
  induction a as [|x a IH]; [done|].
  intros H. apply IH.
  change (String x (a +:+ b) = String x (a +:+ c)) in H. by injection H.
Qed.

Lemma plots_path_ne_readme (name : string) : plots_path name ≠ readme_path name.
Proof. unfold plots_path, readme_path. intros H. by apply append_inj_l in H. Qed.

Lemma visualize_data_world (E : env) (self : DataAnalyzer) (a : analysis) (w : world) :
  (visualize_data E self a w).1 = inr tt ∧
  http_calls (visualize_data E self a w).2 = http_calls w ∧
  dirs (visualize_data E self a w).2 = dirs w ∧
  ∀ p, p ≠ plots_path (dataset_name self) →
       files (visualize_data E self a w).2 !! p = files w !! p.
Proof.
  unfold visualize_data. destruct (savefig E) as [e|image]; cbn.
  - done.
  - do 3 (split; [done|]). intros p Hp. by rewrite lookup_insert_ne.
Qed.

Section Run.

Variable parse_numeric : string -> option number.
Variable quantile : list float -> Q -> exn + float.
Variable pearson : list float -> list float -> float.
Variable describe : list float -> gmap string float.

(** The sections of the analysis are computed on the one table that the
    basic statistics have coerced, whatever the quantile routine does:
    [analyze_dataset] never raises, hands back the coerced table, writes
    no file and sends no request. *)
Theorem analyze_dataset_sections (table : DataFrame) (w : world) :
  ∃ a w',
    analyze_dataset parse_numeric quantile pearson describe table w
    = (inr (a, (_get_basic_statistics parse_numeric describe table).2), w') ∧
    a_basic_stats a = (_get_basic_statistics parse_numeric describe table).1 ∧
    a_missing_values a
      = _analyze_missing_values (_get_basic_statistics parse_numeric describe table).2 ∧
    a_correlations a
      = _compute_correlations pearson (_get_basic_statistics parse_numeric describe table).2 ∧
    a_column_types a
      = _get_column_types (_get_basic_statistics parse_numeric describe table).2 ∧
    (_detect_outliers quantile (_get_basic_statistics parse_numeric describe table).2 w).1
      = inr (a_outliers a) ∧
    files w' = files w ∧ write_log w' = write_log w ∧ http_calls w' = http_calls w.
Proof.
  unfold analyze_dataset.
  destruct (_get_basic_statistics parse_numeric describe table) as [stats table1].
  unfold _detect_outliers, bind. cbn [snd fst].
  destruct (detect_loop_returns quantile table1 (select_number table1) ∅ w)
    as (out & Hout & _).
  rewrite Hout. eexists _, _. split; [reflexivity|]. by cbn.
Qed.

(** [run_analysis] stops at its first line when the dataset name is
    empty or a regular file has the name of the dataset directory. *)
Lemma run_analysis_no_name (E : env) (self : DataAnalyzer) (w : world) :
  dataset_name self = EmptyString →
  run_analysis parse_numeric quantile pearson describe E self w
  = (inl (OtherError "FileNotFoundError"), w).
Proof. intros Hname. unfold run_analysis, bind, makedirs. by rewrite decide_True. Qed.

Lemma run_analysis_file_in_the_way (E : env) (self : DataAnalyzer) (w : world) :
  dataset_name self ≠ EmptyString →
  is_Some (files w !! dataset_name self) →
  run_analysis parse_numeric quantile pearson describe E self w = (inl FileExistsError, w).
Proof.
  intros Hname [text Hfile]. unfold run_analysis, bind, makedirs.
  rewrite decide_False by done. by rewrite Hfile.
Qed.

(** The effects of [run_analysis] once the directory is there. *)
Lemma run_analysis_effects (E : env) (self : DataAnalyzer) (w : world) res w' :
  dataset_name self ≠ EmptyString →
  files w !! dataset_name self = None →
  run_analysis parse_numeric quantile pearson describe E self w = (res, w') →
  dataset_name self ∈ dirs w' ∧
  (∀ p, p ≠ readme_path (dataset_name self) → p ≠ plots_path (dataset_name self) →
        files w' !! p = files w !! p) ∧
  (res = inr tt → is_Some (files w' !! readme_path (dataset_name self))) ∧
  (http_calls w + 1 <= http_calls w' <= http_calls w + 3)%nat.
Proof.
  intros Hname Hnone. unfold run_analysis, bind, makedirs.
  rewrite decide_False by done. rewrite Hnone.
  set (w1 := World _ _ _ _ _ _).
  assert (Hdir : dataset_name self ∈ dirs w1).
  { unfold w1. cbn. destruct (decide (dataset_name self ∈ dirs w)); [done|].
    apply elem_of_app. right. left. }
  destruct (analyze_dataset_returns parse_numeric quantile pearson describe (df self) w1)
    as (a & w2 & Hrun & _ & _ & _ & _ & Hfiles & _ & Hdirs & Hcalls & _).
  rewrite Hrun. cbn [fst snd].
  set (self' := mkAnalyzer _ _ _ _).
  destruct (visualize_data_world E self' a w2) as (Hv & Hvcalls & Hvdirs & Hvfiles).
  destruct (visualize_data E self' a w2) as [rv w3]. cbn [fst snd] in *. subst rv.
  intros Hn. unfold generate_narrative, retry in Hn.
  apply retry_narrative_effects in Hn; [|lia|simpl; lia].
  destruct Hn as (k & writes & Hk & Hncalls & _ & Hndirs & _ & _ & _ & Hnfiles & _ & Hres).
  cbn [dataset_name self'] in *.
  split; [by rewrite Hndirs, Hvdirs, Hdirs|]. split; [|split].
  - intros p Hp1 Hp2. by rewrite Hnfiles, Hvfiles, Hfiles.
  - intros ->. destruct Hres as (text & -> & _). by eexists.
  - rewrite Hncalls, Hvcalls, Hcalls. cbn. simpl in Hk. lia.
Qed.

(** [run_analysis] raises at once, with nothing done, when the dataset
    name is empty ([FileNotFoundError]) or a regular file already has the
    name of the dataset directory ([FileExistsError]).  Otherwise it
    creates that directory, writes to no file but the image and the
    report, sends between one and three requests, and when it returns the
    report file is there. *)
Theorem run_analysis_outputs (E : env) (self : DataAnalyzer) (w : world) :
  (dataset_name self = EmptyString →
   run_analysis parse_numeric quantile pearson describe E self w
   = (inl (OtherError "FileNotFoundError"), w)) ∧
  (dataset_name self ≠ EmptyString →
   is_Some (files w !! dataset_name self) →
   run_analysis parse_numeric quantile pearson describe E self w
   = (inl FileExistsError, w)) ∧
  (dataset_name self ≠ EmptyString →
   files w !! dataset_name self = None →
   dataset_name self
     ∈ dirs (run_analysis parse_numeric quantile pearson describe E self w).2 ∧
   (∀ p, p ≠ readme_path (dataset_name self) → p ≠ plots_path (dataset_name self) →
         files (run_analysis parse_numeric quantile pearson describe E self w).2 !! p
         = files w !! p) ∧
   ((run_analysis parse_numeric quantile pearson describe E self w).1 = inr tt →
    is_Some (files (run_analysis parse_numeric quantile pearson describe E self w).2
               !! readme_path (dataset_name self))) ∧
   (http_calls w + 1
    <= http_calls (run_analysis parse_numeric quantile pearson describe E self w).2
    <= http_calls w + 3)%nat).
Proof.
  split; [apply run_analysis_no_name|].
  split; [apply run_analysis_file_in_the_way|]. intros Hname Hnone.
  destruct (run_analysis parse_numeric quantile pearson describe E self w)
    as [res w'] eqn:Hrun.
  exact (run_analysis_effects E self w res w' Hname Hnone Hrun).
Qed.

(** When ingestion fails, [main] propagates the error and nothing has
    been produced: no directory, no file, no request. *)
Theorem main_ingestion_failure_leaves_nothing (E : env) (a0 path : string)
    (rest : list string) (w : world) (e : exn) :
  (_read_csv_robust E path w).1 = inl e →
  (main parse_numeric quantile pearson describe E (a0 :: path :: rest) w).1 = Uncaught e ∧
  files (main parse_numeric quantile pearson describe E (a0 :: path :: rest) w).2
    = files w ∧
  dirs (main parse_numeric quantile pearson describe E (a0 :: path :: rest) w).2
    = dirs w ∧
  write_log (main parse_numeric quantile pearson describe E (a0 :: path :: rest) w).2
    = write_log w ∧
  http_calls (main parse_numeric quantile pearson describe E (a0 :: path :: rest) w).2
    = http_calls w.
Proof.
  intros Hfail. rewrite main_with_path.
  destruct (read_csv_robust_world E path w) as [lines Hw].
  destruct (_read_csv_robust E path w) as [[e'|table] w1]; cbn [fst snd] in *; [|done].
  injection Hfail as ->. subst w1. done.
Qed.

(** A run of [main] that completes has created the directory named
    after the dataset and left the report file in it. *)
Theorem main_completed_report_present (E : env) (a0 path : string)
    (rest : list string) (w : world) :
  (main parse_numeric quantile pearson describe E (a0 :: path :: rest) w).1 = Completed →
  dataset_name_of path
    ∈ dirs (main parse_numeric quantile pearson describe E (a0 :: path :: rest) w).2 ∧
  is_Some (files (main parse_numeric quantile pearson describe E (a0 :: path :: rest) w).2
             !! readme_path (dataset_name_of path)).
Proof.
  rewrite main_with_path.
  destruct (_read_csv_robust E path w) as [[e|table] w1]; [done|].
  destruct (run_analysis parse_numeric quantile pearson describe E
              (mkAnalyzer path table (dataset_name_of path) (environ_token E)) w1)
    as [[e|[]] w2] eqn:Hrun; [done|].
  intros _. cbn [fst snd].
  destruct (decide (dataset_name_of path = EmptyString)) as [Hempty|Hempty].
  { by rewrite run_analysis_no_name in Hrun. }
  destruct (files w1 !! dataset_name_of path) as [text|] eqn:Hname.
  { rewrite run_analysis_file_in_the_way in Hrun by (cbn; by rewrite ?Hname). done. }
  destruct (run_analysis_effects E (mkAnalyzer path table (dataset_name_of path)
                                      (environ_token E)) w1 _ w2 Hempty Hname Hrun)
    as (Hdir & _ & Hfile & _).
  cbn [dataset_name] in *. split; [done | by apply Hfile].
Qed.

End Run.

Lemma main_ingestion_failure_leaves_nothing_witness :
  ∃ e,
    (_read_csv_robust env_no_parse "data.csv" initial_world).1 = inl e ∧
    (main parse_decimal linear_quantile pearson_unreached describe_unreached
          env_no_parse ["autolysis.py"; "data.csv"] initial_world).1 = Uncaught e ∧
    dirs (main parse_decimal linear_quantile pearson_unreached describe_unreached
               env_no_parse ["autolysis.py"; "data.csv"] initial_world).2 = [].
Proof.
  eexists. split; [vm_compute; reflexivity|].
  destruct (main_ingestion_failure_leaves_nothing parse_decimal linear_quantile
              pearson_unreached describe_unreached env_no_parse "autolysis.py" "data.csv"
              [] initial_world _ ltac:(vm_compute; reflexivity)) as (H1 & _ & H3 & _).
  split; [exact H1 | exact H3].
Defined.

Lemma main_completed_report_present_witness :
  (main parse_decimal linear_quantile pearson_unreached describe_unreached
        (env_all_good one_text) ["autolysis.py"; "out/data.csv"] initial_world).1
  = Completed ∧
  is_Some (files (main parse_decimal linear_quantile pearson_unreached describe_unreached
                       (env_all_good one_text) ["autolysis.py"; "out/data.csv"]
                       initial_world).2 !! "data/README.md").
Proof.
  split; [reflexivity|].
  destruct (main_completed_report_present parse_decimal linear_quantile pearson_unreached
              describe_unreached (env_all_good one_text) "autolysis.py" "out/data.csv" []
              initial_world eq_refl) as [_ H].
  exact H.
Defined.
